(** * nat-updater-aws-connector: the NAT route reconciler and its Event

    A shallow embedding of [main.go] (the reconciler: [routingTableBySubnetID],
    [createRouteTable], [createNatGatewayRoutes], [routeTableIsConfigured],
    [updateNat]) and of the Event of [event.go] ([Validate], [Process],
    [Error], [Complete]).

    The EC2 service, the NATS connection and encoding/json are external to the
    repository.  The EC2 service is an interface (a record of four operations
    over a provider state), the NATS connection is the list of messages
    published on it, and the JSON codec is a pair of section variables; the
    wire form of the Event follows the tags of the struct, over the library's
    encoders of strings and of slices of strings. *)

From Stdlib Require Import String Ascii List Bool Arith Lia.
From Stdlib Require Import Strings.Byte.
Import ListNotations.
Open Scope string_scope.
Open Scope list_scope.

Set Implicit Arguments.

(** ** Go values *)

(** Go's [error] interface: a value is observed through [err.Error()]. *)
Record error : Type := errors_New { error_Error : string }.

(** A nil [error] is [None] of [option error]. *)

(** A goroutine either returns a value or panics (nil-pointer dereference,
    [log.Panic]). *)
Inductive result (A : Type) : Type :=
| Ret (a : A)
| Panic.
Arguments Panic {A}.

(** The reply of a remote call: [(resp, nil)] or [(nil, err)]. *)
Inductive reply (A : Type) : Type :=
| OK (resp : A)
| ERR (err : error).
Arguments ERR {A} err.

(** ** The EC2 data the reconciler reads *)

(** [ec2.Route]: every field is a pointer in the SDK, [None] is nil. *)
Record Route : Type := {
  DestinationCidrBlock : option string;
  NatGatewayId : option string;
  GatewayId : option string
}.

(** [ec2.RouteTable]; [Associations] keeps the subnet ID of each association. *)
Record RouteTable : Type := {
  RouteTableId : option string;
  VpcId : option string;
  Routes : list Route;
  Associations : list string
}.

(** The four requests the reconciler sends, with the fields it fills in:
    - [DescribeRouteTablesInput] with the single filter
      [association.subnet-id = [subnet]];
    - [CreateRouteTableInput{VpcId}];
    - [AssociateRouteTableInput{RouteTableId, SubnetId}];
    - [CreateRouteInput{RouteTableId, DestinationCidrBlock, NatGatewayId}]. *)
Inductive Call : Type :=
| DescribeRouteTablesInput (subnet : string)
| CreateRouteTableInput (vpc : string)
| AssociateRouteTableInput (rtid : option string) (subnet : string)
| CreateRouteInput (rtid : option string) (cidr gw : string).

(** The lookup reads; the other three calls change the provider. *)
Definition mutating (c : Call) : bool :=
  match c with
  | DescribeRouteTablesInput _ => false
  | _ => true
  end.

(** One call as it happened: the request and the error it came back with. *)
Record Entry : Type := { call : Call; failure : option error }.

(** [*ec2.EC2]: the four operations over a provider state [S].  A reply
    without error carries the response; the tables of a
    [DescribeRouteTablesOutput] are taken as non-nil pointers, as the SDK
    builds them, and [CreateRouteTable] answers with [resp.RouteTable], a
    pointer the code dereferences. *)
Record EC2 (S : Type) : Type := {
  DescribeRouteTables : string -> S -> reply (list RouteTable) * S;
  CreateRouteTable : string -> S -> reply (option RouteTable) * S;
  AssociateRouteTable : option string -> string -> S -> reply unit * S;
  CreateRoute : option string -> string -> string -> S -> reply unit * S
}.

(** What [ec2.New] is given: the region and the static credentials. *)
Record Config : Type := {
  Region : string;
  AccessKeyID : string;
  SecretAccessKey : string
}.

(** ** The Event (event.go) *)

Record Event : Type := {
  UUID : string;
  BatchID : string;
  ProviderType : string;
  VPCID : string;
  DatacenterRegion : string;
  DatacenterAccessKey : string;
  DatacenterAccessToken : string;
  PublicNetwork : string;
  PublicNetworkAWSID : string;
  RoutedNetworks : list string;
  RoutedNetworkAWSIDs : list string;
  NatGatewayAWSID : string;
  NatGatewayAllocationID : string;
  NatGatewayAllocationIP : string;
  InternetGatewayID : string;
  ErrorMessage : string
}.

(** [ev.ErrorMessage = msg] *)
Definition set_ErrorMessage (ev : Event) (msg : string) : Event :=
  {| UUID := UUID ev;
     BatchID := BatchID ev;
     ProviderType := ProviderType ev;
     VPCID := VPCID ev;
     DatacenterRegion := DatacenterRegion ev;
     DatacenterAccessKey := DatacenterAccessKey ev;
     DatacenterAccessToken := DatacenterAccessToken ev;
     PublicNetwork := PublicNetwork ev;
     PublicNetworkAWSID := PublicNetworkAWSID ev;
     RoutedNetworks := RoutedNetworks ev;
     RoutedNetworkAWSIDs := RoutedNetworkAWSIDs ev;
     NatGatewayAWSID := NatGatewayAWSID ev;
     NatGatewayAllocationID := NatGatewayAllocationID ev;
     NatGatewayAllocationIP := NatGatewayAllocationIP ev;
     InternetGatewayID := InternetGatewayID ev;
     ErrorMessage := msg |}.

Definition ErrDatacenterIDInvalid : error := errors_New "Datacenter VPC ID invalid".
Definition ErrDatacenterRegionInvalid : error := errors_New "Datacenter Region invalid".
Definition ErrDatacenterCredentialsInvalid : error := errors_New "Datacenter credentials invalid".
Definition ErrNetworkIDInvalid : error := errors_New "Network id invalid".
Definition ErrRoutedNetworksEmpty : error := errors_New "Routed networks are empty".

(** [s == ""] *)
Definition is_empty (s : string) : bool :=
  match s with
  | EmptyString => true
  | String _ _ => false
  end.

(** [func (ev *Event) Validate() error] *)
Definition Validate (ev : Event) : option error :=
  if is_empty (VPCID ev) then Some ErrDatacenterIDInvalid
  else if is_empty (DatacenterRegion ev) then Some ErrDatacenterRegionInvalid
  else if is_empty (DatacenterAccessKey ev) || is_empty (DatacenterAccessToken ev)
       then Some ErrDatacenterCredentialsInvalid
  else if is_empty (PublicNetworkAWSID ev) then Some ErrNetworkIDInvalid
  else if (List.length (RoutedNetworkAWSIDs ev) <? 1)%nat then Some ErrRoutedNetworksEmpty
  else None.

(** ** The reconciler (main.go) *)

(** A computation against the provider: it threads the provider state and
    appends the calls it makes to a log, and it may panic. *)
Definition M (S A : Type) : Type := S -> result A * S * list Entry.

Definition ret {S A : Type} (a : A) : M S A := fun s => (Ret a, s, []).

Definition panic {S A : Type} : M S A := fun s => (Panic, s, []).

(** A call of a function that touches neither the provider nor the log. *)
Definition pure {S A : Type} (r : result A) : M S A := fun s => (r, s, []).

Definition bind {S A B : Type} (m : M S A) (k : A -> M S B) : M S B :=
  fun s =>
    match m s with
    | (Ret a, s1, l1) =>
        match k a s1 with
        | (r, s2, l2) => (r, s2, l1 ++ l2)
        end
    | (Panic, s1, l1) => (Panic, s1, l1)
    end.

Notation "x <- m ;; k" := (bind m (fun x => k))
  (at level 61, m at next level, right associativity).
Notation "' pat <- m ;; k" := (bind m (fun x => match x with pat => k end))
  (at level 61, pat pattern, m at next level, right associativity).

(** The error of a reply, as the log keeps it. *)
Definition reply_error {A : Type} (r : reply A) : option error :=
  match r with
  | OK _ => None
  | ERR e => Some e
  end.

(** One remote call: run the operation on the provider state, log it. *)
Definition remote {S A : Type} (c : Call) (op : S -> reply A * S) : M S (reply A) :=
  fun s =>
    match op s with
    | (r, s') => (Ret r, s', [{| call := c; failure := reply_error r |}])
    end.

Definition default_route : string := "0.0.0.0/0".

(** The loop of [routeTableIsConfigured]: [*route.DestinationCidrBlock] is
    read for every route reached, [*route.NatGatewayId] only when the first
    operand of [&&] holds. *)
Fixpoint routes_range (routes : list Route) (gwID : string) : result bool :=
  match routes with
  | [] => Ret false
  | route :: rest =>
      match DestinationCidrBlock route with
      | None => Panic
      | Some dst =>
          if String.eqb dst default_route then
            match NatGatewayId route with
            | None => Panic
            | Some gw => if String.eqb gw gwID then Ret true else routes_range rest gwID
            end
          else routes_range rest gwID
      end
  end.

(** [func routeTableIsConfigured(rt *ec2.RouteTable, gwID string) bool] *)
Definition routeTableIsConfigured (rt : option RouteTable) (gwID : string) : result bool :=
  match rt with
  | None => Panic
  | Some t => routes_range (Routes t) gwID
  end.

Section Reconciler.

Variable S : Type.
Variable svc : EC2 S.

(** [func routingTableBySubnetID(svc, subnet)], returning the pair of a
    [*ec2.RouteTable] and an [error] *)
Definition routingTableBySubnetID (subnet : string)
  : M S (option RouteTable * option error) :=
  r <- remote (DescribeRouteTablesInput subnet) (DescribeRouteTables svc subnet) ;;
  match r with
  | ERR err => ret (None, Some err)
  | OK resp =>
      match resp with
      | [] => ret (None, None)
      | t :: _ => ret (Some t, None)
      end
  end.

(** [func createRouteTable(svc, vpc, subnet)], returning the pair of a
    [*ec2.RouteTable] and an [error] *)
Definition createRouteTable (vpc subnet : string)
  : M S (option RouteTable * option error) :=
  '(rt, err) <- routingTableBySubnetID subnet ;;
  match err with
  | Some e => ret (None, Some e)
  | None =>
      match rt with
      | Some t => ret (Some t, None)
      | None =>
          r <- remote (CreateRouteTableInput vpc) (CreateRouteTable svc vpc) ;;
          match r with
          | ERR e => ret (None, Some e)
          | OK None => panic
          | OK (Some t) =>
              a <- remote (AssociateRouteTableInput (RouteTableId t) subnet)
                          (AssociateRouteTable svc (RouteTableId t) subnet) ;;
              match a with
              | ERR e => ret (None, Some e)
              | OK _ => ret (Some t, None)
              end
          end
      end
  end.

(** [func createNatGatewayRoutes(svc *ec2.EC2, rt *ec2.RouteTable, gwID string) error] *)
Definition createNatGatewayRoutes (rt : option RouteTable) (gwID : string)
  : M S (option error) :=
  match rt with
  | None => panic
  | Some t =>
      r <- remote (CreateRouteInput (RouteTableId t) default_route gwID)
                  (CreateRoute svc (RouteTableId t) default_route gwID) ;;
      match r with
      | ERR e => ret (Some e)
      | OK _ => ret None
      end
  end.

(** The body of the [for] loop of [updateNat] for one [networkID]:
    [Some err] is [return err], [None] goes on to the next subnet (the
    [continue] and the end of the body alike). *)
Definition updateNat_body (ev : Event) (networkID : string) : M S (option error) :=
  '(rt, err) <- createRouteTable (VPCID ev) networkID ;;
  match err with
  | Some e => ret (Some e)
  | None =>
      isConfigured <- pure (routeTableIsConfigured rt (NatGatewayAWSID ev)) ;;
      if isConfigured then ret None
      else
        err' <- createNatGatewayRoutes rt (NatGatewayAWSID ev) ;;
        match err' with
        | Some e => ret (Some e)
        | None => ret None
        end
  end.

End Reconciler.

(** The calls made while the loop was at one subnet of the list. *)
Record Iteration : Type := { it_subnet : string; it_calls : list Entry }.

Section UpdateNat.

Variable S : Type.
(** [ec2.New(session.New(), &aws.Config{Region, Credentials})] *)
Variable ec2_New : Config -> EC2 S.

(** [for _, networkID := range ev.RoutedNetworkAWSIDs { ... }; return nil] *)
Fixpoint updateNat_range (svc : EC2 S) (ev : Event) (ids : list string) (s : S)
  : result (option error) * S * list Iteration :=
  match ids with
  | [] => (Ret None, s, [])
  | networkID :: rest =>
      match updateNat_body svc ev networkID s with
      | (Ret None, s1, calls) =>
          match updateNat_range svc ev rest s1 with
          | (r, s2, its) => (r, s2, {| it_subnet := networkID; it_calls := calls |} :: its)
          end
      | (r, s1, calls) => (r, s1, [{| it_subnet := networkID; it_calls := calls |}])
      end
  end.

(** [func updateNat(ev *Event) error]; the event's VPC ID is the field the
    Event declares as [VPCID]. *)
Definition updateNat (ev : Event) (s : S)
  : result (option error) * S * list Iteration :=
  let svc := ec2_New {| Region := DatacenterRegion ev;
                        AccessKeyID := DatacenterAccessKey ev;
                        SecretAccessKey := DatacenterAccessToken ev |} in
  updateNat_range svc ev (RoutedNetworkAWSIDs ev) s.

End UpdateNat.

(** ** The terminal reports of the Event (event.go) *)

(** A message on the NATS connection [nc]. *)
Record Msg : Type := { subject : string; data : list byte }.

Definition done_subject : string := "nat.update.aws.done".
Definition error_subject : string := "nat.update.aws.error".

(** A method of the Event that may publish on [nc]: what it returns (or a
    panic) and the messages it published, in order. *)
Definition Nats (A : Type) : Type := (result A * list Msg)%type.

(** [nc.Publish(subject, data)]; the error it returns is dropped by every
    caller. *)
Definition Publish (subj : string) (payload : list byte) : Nats unit :=
  (Ret tt, [{| subject := subj; data := payload |}]).

(** Sequencing: a panic stops the method, what was published stays. *)
Definition and_then {A B : Type} (m : Nats A) (k : A -> Nats B) : Nats B :=
  match m with
  | (Ret a, out) =>
      match k a with
      | (r, out') => (r, out ++ out')
      end
  | (Panic, out) => (Panic, out)
  end.

Section EventReports.

(** [json.Marshal(ev)]: the bytes, or an error with nil bytes. *)
Variable json_Marshal : Event -> reply (list byte).
(** [json.Unmarshal(data, &ev)]: the event as the decoder left it, and the
    error. *)
Variable json_Unmarshal : list byte -> Event -> Event * option error.

(** [func (ev *Event) Process(data []byte) error] *)
Definition Process (ev : Event) (payload : list byte) : Nats (Event * option error) :=
  match json_Unmarshal payload ev with
  | (ev', Some err) =>
      and_then (Publish error_subject payload) (fun _ => (Ret (ev', Some err), []))
  | (ev', None) => (Ret (ev', None), [])
  end.

(** [func (ev *Event) Error(err error)]; the two [log] calls write to the
    process log, and [log.Panic] then panics. *)
Definition Error (ev : Event) (err : error) : Nats Event :=
  let ev' := set_ErrorMessage ev (error_Error err) in
  match json_Marshal ev' with
  | ERR _ => (Panic, [])
  | OK payload => and_then (Publish error_subject payload) (fun _ => (Ret ev', []))
  end.

(** [func (ev *Event) Complete()]: after [ev.Error(err)] returns, the
    method goes on to publish [data], which is nil then. *)
Definition Complete (ev : Event) : Nats Event :=
  match json_Marshal ev with
  | ERR err =>
      and_then (Error ev err) (fun ev' =>
      and_then (Publish done_subject []) (fun _ => (Ret ev', [])))
  | OK payload => and_then (Publish done_subject payload) (fun _ => (Ret ev, []))
  end.

End EventReports.

(** The messages of a report, those on one subject, and its outcome. *)
Definition published {A : Type} (m : Nats A) : list Msg := snd m.

Definition published_on {A : Type} (subj : string) (m : Nats A) : list Msg :=
  filter (fun msg => String.eqb (subject msg) subj) (snd m).

Definition outcome {A : Type} (m : Nats A) : result A := fst m.

(** ** Reading the call log *)

(** The route [routeTableIsConfigured] looks for. *)
Definition is_target (gwID : string) (route : Route) : bool :=
  match DestinationCidrBlock route, NatGatewayId route with
  | Some dst, Some gw => String.eqb dst default_route && String.eqb gw gwID
  | _, _ => false
  end.

(** A route the check cannot read: no destination CIDR, or a default route
    with no NAT gateway ID. *)
Definition unreadable (route : Route) : bool :=
  match DestinationCidrBlock route with
  | None => true
  | Some dst =>
      String.eqb dst default_route &&
      match NatGatewayId route with
      | None => true
      | Some _ => false
      end
  end.

(** The errors the calls of a run came back with, in order. *)
Definition failures_of (calls : list Entry) : list error :=
  flat_map (fun en => match failure en with Some e => [e] | None => [] end) calls.

Definition failures (its : list Iteration) : list error :=
  flat_map (fun it => failures_of (it_calls it)) its.

(** The calls made while the loop was at [subnet] (at any of its positions in
    the list), and the mutating ones among them. *)
Definition calls_for (subnet : string) (its : list Iteration) : list Call :=
  flat_map (fun it => if String.eqb (it_subnet it) subnet
                      then map call (it_calls it) else []) its.

Definition mutating_calls_for (subnet : string) (its : list Iteration) : list Call :=
  filter mutating (calls_for subnet its).

Definition all_calls (its : list Iteration) : list Call :=
  flat_map (fun it => map call (it_calls it)) its.

(** ** A reference provider *)

(** Modelled from the spec: the remote network-configuration service of
    section 4.2, which is not part of the repository.  It keeps the route
    tables in creation order.  The lookup lists the tables associated with
    the subnet; create-route-table adds an empty table with an ID no table
    has; associate binds a table to a subnet that has no association yet;
    create-route adds a route entry to the table.  Any call may fail with a
    transport or provider error: [faults] is the schedule of those failures,
    one entry per call, [Some e] failing that call with [e]. *)
Record Mem : Type := {
  tables : list RouteTable;
  faults : list (option error)
}.

Definition associated (subnet : string) (t : RouteTable) : bool :=
  existsb (String.eqb subnet) (Associations t).

Definition has_id (id : string) (t : RouteTable) : bool :=
  match RouteTableId t with
  | Some i => String.eqb i id
  | None => false
  end.

Fixpoint zeros (n : nat) : string :=
  match n with
  | O => EmptyString
  | Datatypes.S n' => String "0"%char (zeros n')
  end.

Definition id_length (t : RouteTable) : nat :=
  match RouteTableId t with
  | Some i => String.length i
  | None => 0
  end.

(** An ID longer than every ID in use. *)
Definition fresh_id (ts : list RouteTable) : string :=
  "rtb-" ++ zeros (Datatypes.S (list_max (map id_length ts))).

Definition new_table (vpc : string) (ts : list RouteTable) : RouteTable :=
  {| RouteTableId := Some (fresh_id ts);
     VpcId := Some vpc;
     Routes := [];
     Associations := [] |}.

Definition add_association (id subnet : string) (t : RouteTable) : RouteTable :=
  if has_id id t
  then {| RouteTableId := RouteTableId t; VpcId := VpcId t; Routes := Routes t;
          Associations := Associations t ++ [subnet] |}
  else t.

Definition add_route (id : string) (r : Route) (t : RouteTable) : RouteTable :=
  if has_id id t
  then {| RouteTableId := RouteTableId t; VpcId := VpcId t; Routes := Routes t ++ [r];
          Associations := Associations t |}
  else t.

(** One call of the reference provider: the next entry of the schedule
    decides whether it fails; an empty schedule lets every call through. *)
Definition scheduled {A : Type} (op : list RouteTable -> reply A * list RouteTable)
  (m : Mem) : reply A * Mem :=
  match faults m with
  | Some e :: fs => (ERR e, {| tables := tables m; faults := fs |})
  | None :: fs =>
      match op (tables m) with
      | (r, ts) => (r, {| tables := ts; faults := fs |})
      end
  | [] =>
      match op (tables m) with
      | (r, ts) => (r, {| tables := ts; faults := [] |})
      end
  end.

Definition ErrMissingParameter : error := errors_New "MissingParameter".
Definition ErrRouteTableNotFound : error := errors_New "InvalidRouteTableID.NotFound".
Definition ErrAlreadyAssociated : error := errors_New "Resource.AlreadyAssociated".

Definition mem_DescribeRouteTables (subnet : string) : Mem -> reply (list RouteTable) * Mem :=
  scheduled (fun ts => (OK (filter (associated subnet) ts), ts)).

Definition mem_CreateRouteTable (vpc : string) : Mem -> reply (option RouteTable) * Mem :=
  scheduled (fun ts => (OK (Some (new_table vpc ts)), ts ++ [new_table vpc ts])).

Definition mem_AssociateRouteTable (rtid : option string) (subnet : string)
  : Mem -> reply unit * Mem :=
  scheduled (fun ts =>
    match rtid with
    | None => (ERR ErrMissingParameter, ts)
    | Some id =>
        if negb (existsb (has_id id) ts) then (ERR ErrRouteTableNotFound, ts)
        else if existsb (associated subnet) ts then (ERR ErrAlreadyAssociated, ts)
        else (OK tt, map (add_association id subnet) ts)
    end).

Definition mem_CreateRoute (rtid : option string) (cidr gw : string)
  : Mem -> reply unit * Mem :=
  scheduled (fun ts =>
    match rtid with
    | None => (ERR ErrMissingParameter, ts)
    | Some id =>
        if negb (existsb (has_id id) ts) then (ERR ErrRouteTableNotFound, ts)
        else (OK tt, map (add_route id {| DestinationCidrBlock := Some cidr;
                                          NatGatewayId := Some gw;
                                          GatewayId := None |}) ts)
    end).

Definition MemEC2 : EC2 Mem :=
  {| DescribeRouteTables := mem_DescribeRouteTables;
     CreateRouteTable := mem_CreateRouteTable;
     AssociateRouteTable := mem_AssociateRouteTable;
     CreateRoute := mem_CreateRoute |}.

(** The reference provider serves every region and credential pair alike. *)
Definition mem_New (_ : Config) : EC2 Mem := MemEC2.

(** The tables the lookup finds for a subnet, and the subnets whose first
    table already has the target route in front of any unreadable one. *)
Definition lookup (subnet : string) (ts : list RouteTable) : list RouteTable :=
  filter (associated subnet) ts.

Definition configured (gwID subnet : string) (ts : list RouteTable) : Prop :=
  exists t rest, lookup subnet ts = t :: rest /\ routes_range (Routes t) gwID = Ret true.

(** ** Sample data (event_test.go) *)

Definition testEvent : Event :=
  {| UUID := "test";
     BatchID := "test";
     ProviderType := "aws";
     VPCID := "vpc-0000000";
     DatacenterRegion := "eu-west-1";
     DatacenterAccessKey := "key";
     DatacenterAccessToken := "token";
     PublicNetwork := "";
     PublicNetworkAWSID := "subnet-00000000";
     RoutedNetworks := [];
     RoutedNetworkAWSIDs := ["subnet-00000001"];
     NatGatewayAWSID := "";
     NatGatewayAllocationID := "";
     NatGatewayAllocationIP := "";
     InternetGatewayID := "";
     ErrorMessage := "" |}.


(** [json.Marshal(testEvent)] as the test builds it: the members in the order
    of the struct, under the names of its tags, the unset slice as [null] and
    the empty error left out. *)
Definition dquote : string := String (ascii_of_nat 34) EmptyString.

Definition json_string (s : string) : string := dquote ++ s ++ dquote.

Definition json_member (name value : string) : string := json_string name ++ ":" ++ value.

Definition valid : list byte :=
  list_byte_of_string
    ("{" ++ String.concat ","
       [ json_member "_uuid" (json_string "test");
         json_member "_batch_id" (json_string "test");
         json_member "_type" (json_string "aws");
         json_member "vpc_id" (json_string "vpc-0000000");
         json_member "datacenter_region" (json_string "eu-west-1");
         json_member "datacenter_access_key" (json_string "key");
         json_member "datacenter_access_token" (json_string "token");
         json_member "public_network" (json_string "");
         json_member "public_network_aws_id" (json_string "subnet-00000000");
         json_member "routed_networks" "null";
         json_member "routed_networks_aws_ids" ("[" ++ json_string "subnet-00000001" ++ "]");
         json_member "nat_gateway_aws_id" (json_string "");
         json_member "nat_gateway_allocation_id" (json_string "");
         json_member "nat_gateway_allocation_ip" (json_string "");
         json_member "internet_gateway_id" (json_string "") ] ++ "}").

Definition strings_eq_dec : forall a b : list string, {a = b} + {a <> b} :=
  list_eq_dec string_dec.

Definition Event_eq_dec (a b : Event) : {a = b} + {a <> b}.
Proof.
  decide equality; auto using string_dec, strings_eq_dec.
Defined.

(** A codec that knows the one payload of the test, for sample runs. *)
Definition sample_Marshal (ev : Event) : reply (list byte) :=
  if Event_eq_dec ev testEvent then OK valid
  else ERR (errors_New "json: unsupported value").

Definition sample_Unmarshal (payload : list byte) (ev : Event) : Event * option error :=
  if list_eq_dec byte_eq_dec payload valid then (testEvent, None)
  else (ev, Some (errors_New "invalid character")).

(** A codec whose encoder refuses every event. *)
Definition failing_Marshal (_ : Event) : reply (list byte) :=
  ERR (errors_New "json: unsupported value").

(** An encoder that refuses an event only as long as it carries no error
    message. *)
Definition reluctant_Marshal (ev : Event) : reply (list byte) :=
  if is_empty (ErrorMessage ev) then ERR (errors_New "json: unsupported value")
  else OK (list_byte_of_string (ErrorMessage ev)).

(** ** The wire form of the Event (the struct tags of event.go) *)

Section GoJSON.

(** [encoding/json] on a string: the quoted form, with its escapes. *)
Variable quote : string -> string.
(** [encoding/json] on a [[]string]: [null] or the bracketed list. *)
Variable encode_strings : list string -> string.

(** The members of the object [json.Marshal] builds for an Event: one for
    each field, in the order of the struct, under the name of its tag;
    [ErrorMessage] is tagged [error,omitempty] and is left out when empty. *)
Definition wire_members (ev : Event) : list (string * string) :=
  [ ("_uuid", quote (UUID ev));
    ("_batch_id", quote (BatchID ev));
    ("_type", quote (ProviderType ev));
    ("vpc_id", quote (VPCID ev));
    ("datacenter_region", quote (DatacenterRegion ev));
    ("datacenter_access_key", quote (DatacenterAccessKey ev));
    ("datacenter_access_token", quote (DatacenterAccessToken ev));
    ("public_network", quote (PublicNetwork ev));
    ("public_network_aws_id", quote (PublicNetworkAWSID ev));
    ("routed_networks", encode_strings (RoutedNetworks ev));
    ("routed_networks_aws_ids", encode_strings (RoutedNetworkAWSIDs ev));
    ("nat_gateway_aws_id", quote (NatGatewayAWSID ev));
    ("nat_gateway_allocation_id", quote (NatGatewayAllocationID ev));
    ("nat_gateway_allocation_ip", quote (NatGatewayAllocationIP ev));
    ("internet_gateway_id", quote (InternetGatewayID ev)) ]
  ++ (if is_empty (ErrorMessage ev) then []
      else [("error", quote (ErrorMessage ev))]).

End GoJSON.

(** The object as text: the members between braces, separated by commas,
    each a quoted name, a colon and the value. *)
Definition render_member (m : string * string) : string :=
  json_string (fst m) ++ ":" ++ snd m.

Definition render_object (ms : list (string * string)) : string :=
  "{" ++ String.concat "," (map render_member ms) ++ "}".

(** [json.Marshal] on an Event.  All the fields are strings and slices of
    strings, which the encoder never refuses: the error is always nil. *)
Definition go_Marshal (quote : string -> string) (encode_strings : list string -> string)
  (ev : Event) : reply (list byte) :=
  OK (list_byte_of_string (render_object (wire_members quote encode_strings ev))).

(** The value of the member of a given name, if the object has one. *)
Definition wire_field (name : string) (ms : list (string * string)) : option string :=
  match find (fun m => String.eqb (fst m) name) ms with
  | Some m => Some (snd m)
  | None => None
  end.

(** The encoder of strings on text that needs no escape, and the encoder of
    slices on top of it, an empty list standing for the nil slice. *)
Definition plain_quote (s : string) : string := json_string s.

Definition plain_strings (l : list string) : string :=
  match l with
  | [] => "null"
  | _ => "[" ++ String.concat "," (map plain_quote l) ++ "]"
  end.

(** The event a method hands back to its caller, if it returns. *)
Definition handed_back (m : Nats (Event * option error)) : option Event :=
  match fst m with
  | Ret (ev, _) => Some ev
  | Panic => None
  end.

(** The object with an error member in front of a [vpc_id] that holds a
    number. *)
Definition type_error_payload : list byte :=
  list_byte_of_string
    ("{" ++ json_member "error" (json_string "boom") ++ ","
         ++ json_member "vpc_id" "1" ++ "}").

Definition ErrUnmarshalType : error :=
  errors_New "json: cannot unmarshal number into Go struct field Event.vpc_id of type string".

(** The replies of [json.Unmarshal] to three kinds of payload: the payload of
    the tests decodes to the event of the tests; in the object above the
    error member is stored, and the [vpc_id] member, a number where a string
    is expected, is reported once the object has been read; any other
    payload is refused as malformed, the event untouched. *)
Definition typed_Unmarshal (payload : list byte) (ev : Event) : Event * option error :=
  if list_eq_dec byte_eq_dec payload type_error_payload
  then (set_ErrorMessage ev "boom", Some ErrUnmarshalType)
  else sample_Unmarshal payload ev.

(** Sample routes and tables. *)
Definition nat_route (gw : string) : Route :=
  {| DestinationCidrBlock := Some default_route; NatGatewayId := Some gw; GatewayId := None |}.

(** A route to a prefix list (a gateway endpoint): it has no destination CIDR. *)
Definition endpoint_route : Route :=
  {| DestinationCidrBlock := None; NatGatewayId := None; GatewayId := Some "vpce-1" |}.

(** A default route to an internet gateway: it has no NAT gateway ID. *)
Definition igw_route : Route :=
  {| DestinationCidrBlock := Some default_route; NatGatewayId := None; GatewayId := Some "igw-1" |}.

Definition local_route : Route :=
  {| DestinationCidrBlock := Some "10.0.0.0/16"; NatGatewayId := None; GatewayId := Some "local" |}.

Definition table_of (id subnet : string) (routes : list Route) : RouteTable :=
  {| RouteTableId := Some id; VpcId := Some "vpc-0000000"; Routes := routes;
     Associations := [subnet] |}.

Definition natEvent : Event :=
  {| UUID := "test";
     BatchID := "test";
     ProviderType := "aws";
     VPCID := "vpc-0000000";
     DatacenterRegion := "eu-west-1";
     DatacenterAccessKey := "key";
     DatacenterAccessToken := "token";
     PublicNetwork := "";
     PublicNetworkAWSID := "subnet-00000000";
     RoutedNetworks := [];
     RoutedNetworkAWSIDs := ["subnet-00000001"; "subnet-00000002"];
     NatGatewayAWSID := "nat-1";
     NatGatewayAllocationID := "";
     NatGatewayAllocationIP := "";
     InternetGatewayID := "";
     ErrorMessage := "" |}.

(** ** Reading the body of the loop *)

(** A call that succeeded, a call that failed. *)
Definition ok (c : Call) : Entry := {| call := c; failure := None |}.

Definition failed (c : Call) (e : error) : Entry := {| call := c; failure := Some e |}.

Section BodyShape.

Variable S : Type.
Variable svc : EC2 S.
Variable ev : Event.

(** What the body does once it holds a table: the check, then the route. *)
Definition finish (t : RouteTable) (s : S) (before : list Entry)
  : result (option error) * S * list Entry :=
  match routes_range (Routes t) (NatGatewayAWSID ev) with
  | Panic => (Panic, s, before)
  | Ret true => (Ret None, s, before)
  | Ret false =>
      match CreateRoute svc (RouteTableId t) default_route (NatGatewayAWSID ev) s with
      | (ERR e, s') =>
          (Ret (Some e), s',
           before ++ [failed (CreateRouteInput (RouteTableId t) default_route
                                               (NatGatewayAWSID ev)) e])
      | (OK _, s') =>
          (Ret None, s',
           before ++ [ok (CreateRouteInput (RouteTableId t) default_route
                                           (NatGatewayAWSID ev))])
      end
  end.

End BodyShape.

(** The shape of a call log: either the body returned the error of its last
    call, every call before it having succeeded, or no call failed. *)
Definition log_shape (r : result (option error)) (calls : list Entry) : Prop :=
  match r with
  | Ret (Some e) =>
      exists before c, calls = before ++ [failed c e] /\ failures_of before = []
  | _ => failures_of calls = []
  end.

(** ** Sample providers *)

(** A provider with no route table yet. *)
Definition empty_provider : Mem := {| tables := []; faults := [] |}.

Definition ErrRequestLimitExceeded : error := errors_New "RequestLimitExceeded".

(** The same provider refusing the second call made to it. *)
Definition throttled_provider : Mem :=
  {| tables := []; faults := [None; Some ErrRequestLimitExceeded] |}.

(** The first subnet has a table with the target route behind the local
    route. *)
Definition configured_provider : Mem :=
  {| tables := [table_of "rtb-1" "subnet-00000001" [local_route; nat_route "nat-1"]];
     faults := [] |}.

(** The first subnet has a table with the target route behind the route of a
    gateway endpoint. *)
Definition endpoint_provider : Mem :=
  {| tables := [table_of "rtb-1" "subnet-00000001" [endpoint_route; nat_route "nat-1"]];
     faults := [] |}.

(** ** The handler (main.go) *)

(** [var n Event]: the zero value. *)
Definition zero_Event : Event :=
  {| UUID := "";
     BatchID := "";
     ProviderType := "";
     VPCID := "";
     DatacenterRegion := "";
     DatacenterAccessKey := "";
     DatacenterAccessToken := "";
     PublicNetwork := "";
     PublicNetworkAWSID := "";
     RoutedNetworks := [];
     RoutedNetworkAWSIDs := [];
     NatGatewayAWSID := "";
     NatGatewayAllocationID := "";
     NatGatewayAllocationIP := "";
     InternetGatewayID := "";
     ErrorMessage := "" |}.

(** What handling one message did: whether the handler returned or
    panicked, the provider state it left, the calls it made and the messages
    it published. *)
Record Handled (S : Type) : Type := {
  h_result : result unit;
  h_state : S;
  h_iterations : list Iteration;
  h_published : list Msg
}.

Section Handler.

Variable S : Type.
Variable ec2_New : Config -> EC2 S.
Variable json_Marshal : Event -> reply (list byte).
Variable json_Unmarshal : list byte -> Event -> Event * option error.

(** The handler ends with a report ([n.Error(err)] or [n.Complete()]). *)
Definition report (s : S) (its : list Iteration) (before : list Msg) (m : Nats Event)
  : Handled S :=
  {| h_result := match fst m with Ret _ => Ret tt | Panic => Panic end;
     h_state := s;
     h_iterations := its;
     h_published := before ++ snd m |}.

(** [func eventHandler(m *nats.Msg)], [payload] being [m.Data]. *)
Definition eventHandler (payload : list byte) (s : S) : Handled S :=
  match Process json_Unmarshal zero_Event payload with
  | (Panic, out) =>
      {| h_result := Panic; h_state := s; h_iterations := []; h_published := out |}
  | (Ret (n, Some _), out) =>
      {| h_result := Ret tt; h_state := s; h_iterations := []; h_published := out |}
  | (Ret (n, None), out) =>
      match Validate n with
      | Some err => report s [] out (Error json_Marshal n err)
      | None =>
          match updateNat ec2_New n s with
          | (Panic, s', its) =>
              {| h_result := Panic; h_state := s'; h_iterations := its;
                 h_published := out |}
          | (Ret (Some err), s', its) => report s' its out (Error json_Marshal n err)
          | (Ret None, s', its) => report s' its out (Complete json_Marshal n)
          end
      end
  end.

End Handler.

(** ** Reading a run *)

(** The calls the loop can make at one subnet: the lookup, then nothing, or
    the route on the table found, or the creation of a table, its
    association and the route on it, cut short where a call fails. *)
Definition body_calls (ev : Event) (subnet : string) (cs : list Call) : Prop :=
  exists rtid,
    cs = [DescribeRouteTablesInput subnet]
    \/ cs = [DescribeRouteTablesInput subnet;
             CreateRouteInput rtid default_route (NatGatewayAWSID ev)]
    \/ cs = [DescribeRouteTablesInput subnet;
             CreateRouteTableInput (VPCID ev)]
    \/ cs = [DescribeRouteTablesInput subnet;
             CreateRouteTableInput (VPCID ev);
             AssociateRouteTableInput rtid subnet]
    \/ cs = [DescribeRouteTablesInput subnet;
             CreateRouteTableInput (VPCID ev);
             AssociateRouteTableInput rtid subnet;
             CreateRouteInput rtid default_route (NatGatewayAWSID ev)].

(** The subnet a request names: the lookup and the association carry a
    subnet ID, the other two requests carry none. *)
Definition subnet_of (c : Call) : option string :=
  match c with
  | DescribeRouteTablesInput subnet => Some subnet
  | AssociateRouteTableInput _ subnet => Some subnet
  | CreateRouteTableInput _ => None
  | CreateRouteInput _ _ _ => None
  end.

Section BodyCallsAt.

Variable S : Type.
Variable svc : EC2 S.
Variable ev : Event.

(** The calls the loop can make at one subnet from the provider state [s],
    read against the replies of the provider: after the lookup, the route
    goes on the first table the lookup returned; with no table returned, the
    association and the route carry the ID of the table create-route-table
    returned. *)
Definition body_calls_at (subnet : string) (s : S) (cs : list Call) : Prop :=
  match DescribeRouteTables svc subnet s with
  | (ERR _, _) => cs = [DescribeRouteTablesInput subnet]
  | (OK (t :: _), _) =>
      cs = [DescribeRouteTablesInput subnet]
      \/ cs = [DescribeRouteTablesInput subnet;
               CreateRouteInput (RouteTableId t) default_route (NatGatewayAWSID ev)]
  | (OK [], s1) =>
      match CreateRouteTable svc (VPCID ev) s1 with
      | (OK (Some t), _) =>
          cs = [DescribeRouteTablesInput subnet;
                CreateRouteTableInput (VPCID ev);
                AssociateRouteTableInput (RouteTableId t) subnet]
          \/ cs = [DescribeRouteTablesInput subnet;
                   CreateRouteTableInput (VPCID ev);
                   AssociateRouteTableInput (RouteTableId t) subnet;
                   CreateRouteInput (RouteTableId t) default_route (NatGatewayAWSID ev)]
      | (_, _) =>
          cs = [DescribeRouteTablesInput subnet; CreateRouteTableInput (VPCID ev)]
      end
  end.

End BodyCallsAt.

(** A table of the reference provider the reconciler can work on: it has an
    ID and every route of it is readable. *)
Definition workable (t : RouteTable) : bool :=
  match RouteTableId t with
  | Some _ => forallb (fun r => negb (unreadable r)) (Routes t)
  | None => false
  end.

(** A codec whose encoder accepts every event. *)
Definition total_Marshal (ev : Event) : reply (list byte) :=
  OK (list_byte_of_string (VPCID ev ++ "/" ++ ErrorMessage ev)).

(** A decoder that reads the payload as the VPC ID of the event of the tests
    with two routed subnets, and refuses the empty payload. *)
Definition vpc_Unmarshal (payload : list byte) (ev : Event) : Event * option error :=
  match payload with
  | [] => (ev, Some (errors_New "unexpected end of JSON input"))
  | _ =>
      ({| UUID := "test";
          BatchID := "test";
          ProviderType := "aws";
          VPCID := string_of_list_byte payload;
          DatacenterRegion := "eu-west-1";
          DatacenterAccessKey := "key";
          DatacenterAccessToken := "token";
          PublicNetwork := "";
          PublicNetworkAWSID := "subnet-00000000";
          RoutedNetworks := [];
          RoutedNetworkAWSIDs := ["subnet-00000001"; "subnet-00000002"];
          NatGatewayAWSID := "nat-1";
          NatGatewayAllocationID := "";
          NatGatewayAllocationIP := "";
          InternetGatewayID := "";
          ErrorMessage := "" |}, None)
  end.

(** A decoder that yields an event with no VPC ID. *)
Definition blank_Unmarshal (payload : list byte) (ev : Event) : Event * option error :=
  (ev, None).

(** The provider refusing the third call made to it. *)
Definition associate_refused_provider : Mem :=
  {| tables := []; faults := [None; None; Some ErrRequestLimitExceeded] |}.

(** The first subnet has a table without the target route. *)
Definition unrouted_provider : Mem :=
  {| tables := [table_of "rtb-1" "subnet-00000001" [local_route]];
     faults := [] |}.

(** * Properties *)

Ltac mem_ops :=
  change (DescribeRouteTables MemEC2) with mem_DescribeRouteTables in *;
  change (CreateRouteTable MemEC2) with mem_CreateRouteTable in *;
  change (AssociateRouteTable MemEC2) with mem_AssociateRouteTable in *;
  change (CreateRoute MemEC2) with mem_CreateRoute in *.

Ltac mem_done H := inversion H; subst; clear H; simpl.

(** ** Validate *)

Lemma is_empty_true (s : string) : is_empty s = true <-> s = "".
Proof.
  destruct s; simpl; split; intro H; try reflexivity; discriminate.
Qed.

Lemma is_empty_false (s : string) : is_empty s = false <-> s <> "".
Proof.
  destruct s; simpl; split; intro H; try congruence; try discriminate.
Qed.

Lemma length_lt_1 (A : Type) (l : list A) : (List.length l <? 1)%nat = true <-> l = [].
Proof.
  destruct l; simpl; split; intro H; try reflexivity; discriminate.
Qed.

(** C4: [Validate] returns nil exactly when the VPC ID, the region, the access
    key, the access token and the public network ID are non-empty and the
    list of routed subnets is non-empty; otherwise it returns the error of the
    first violated check, in the order VPC ID, region, credentials (key or
    token), public network ID, routed networks, each with its fixed message. *)
Theorem Validate_first_violation (ev : Event) :
  (Validate ev = None <->
     VPCID ev <> "" /\ DatacenterRegion ev <> "" /\
     DatacenterAccessKey ev <> "" /\ DatacenterAccessToken ev <> "" /\
     PublicNetworkAWSID ev <> "" /\ RoutedNetworkAWSIDs ev <> [])
  /\ (VPCID ev = "" -> Validate ev = Some ErrDatacenterIDInvalid)
  /\ (VPCID ev <> "" -> DatacenterRegion ev = "" ->
      Validate ev = Some ErrDatacenterRegionInvalid)
  /\ (VPCID ev <> "" -> DatacenterRegion ev <> "" ->
      DatacenterAccessKey ev = "" \/ DatacenterAccessToken ev = "" ->
      Validate ev = Some ErrDatacenterCredentialsInvalid)
  /\ (VPCID ev <> "" -> DatacenterRegion ev <> "" ->
      DatacenterAccessKey ev <> "" -> DatacenterAccessToken ev <> "" ->
      PublicNetworkAWSID ev = "" ->
      Validate ev = Some ErrNetworkIDInvalid)
  /\ (VPCID ev <> "" -> DatacenterRegion ev <> "" ->
      DatacenterAccessKey ev <> "" -> DatacenterAccessToken ev <> "" ->
      PublicNetworkAWSID ev <> "" -> RoutedNetworkAWSIDs ev = [] ->
      Validate ev = Some ErrRoutedNetworksEmpty)
  /\ error_Error ErrDatacenterIDInvalid = "Datacenter VPC ID invalid"
  /\ error_Error ErrDatacenterRegionInvalid = "Datacenter Region invalid"
  /\ error_Error ErrDatacenterCredentialsInvalid = "Datacenter credentials invalid"
  /\ error_Error ErrNetworkIDInvalid = "Network id invalid"
  /\ error_Error ErrRoutedNetworksEmpty = "Routed networks are empty".
Proof.
  unfold Validate.
  destruct (is_empty (VPCID ev)) eqn:Hvpc;
  destruct (is_empty (DatacenterRegion ev)) eqn:Hreg;
  destruct (is_empty (DatacenterAccessKey ev)) eqn:Hkey;
  destruct (is_empty (DatacenterAccessToken ev)) eqn:Htok;
  destruct (is_empty (PublicNetworkAWSID ev)) eqn:Hnet;
  destruct (List.length (RoutedNetworkAWSIDs ev) <? 1)%nat eqn:Hids;
  simpl;
  repeat match goal with
         | H : is_empty _ = true |- _ => apply is_empty_true in H
         | H : is_empty _ = false |- _ => apply is_empty_false in H
         | H : (_ <? 1)%nat = true |- _ => apply length_lt_1 in H
         | H : (_ <? 1)%nat = false |- _ =>
             assert (RoutedNetworkAWSIDs ev <> [])
               by (intro Hnil; apply length_lt_1 in Hnil; congruence);
             clear H
         end;
  repeat split; intros;
  repeat match goal with
         | H : _ /\ _ |- _ => destruct H
         | H : _ \/ _ |- _ => destruct H
         end;
  try congruence; try discriminate; try assumption.
Qed.

(** The valid event of the tests passes, and each of its five mutilations is
    refused with its own error. *)
Lemma Validate_first_violation_witness :
  Validate testEvent = None
  /\ error_Error ErrRoutedNetworksEmpty = "Routed networks are empty".
Proof.
  pose proof (Validate_first_violation testEvent) as H.
  split.
  - apply (proj2 (proj1 H)).
    repeat split; discriminate.
  - apply (proj2 (proj2 (proj2 (proj2 (proj2 (proj2 (proj2 (proj2 (proj2 (proj2 H)))))))))).
Defined.

(** ** The reports of the Event *)

Section EventReportFacts.

Variable json_Marshal : Event -> reply (list byte).
Variable json_Unmarshal : list byte -> Event -> Event * option error.

Lemma Process_unfold (ev : Event) (payload : list byte) :
  Process json_Unmarshal ev payload =
    match snd (json_Unmarshal payload ev) with
    | Some err =>
        (Ret (json_Unmarshal payload ev),
         [{| subject := error_subject; data := payload |}])
    | None => (Ret (json_Unmarshal payload ev), [])
    end.
Proof.
  unfold Process.
  destruct (json_Unmarshal payload ev) as [ev' [err|]]; reflexivity.
Qed.

Lemma Error_unfold (ev : Event) (err : error) :
  Error json_Marshal ev err =
    match json_Marshal (set_ErrorMessage ev (error_Error err)) with
    | OK payload =>
        (Ret (set_ErrorMessage ev (error_Error err)),
         [{| subject := error_subject; data := payload |}])
    | ERR _ => (Panic, [])
    end.
Proof.
  unfold Error.
  destruct (json_Marshal (set_ErrorMessage ev (error_Error err))); reflexivity.
Qed.

(** C6 (amended): when the payload does not deserialize, [Process] publishes
    exactly those bytes on the error subject and nothing on the done subject,
    and returns the decoder's error; when it deserializes, [Process]
    publishes nothing and returns nil.  In both cases [Process] writes no
    field of the event itself: the event it leaves is the event as the
    decoder left it, so that [ErrorMessage] is unset only if the decoder left
    it unset. *)
Theorem Process_reports_malformed_input (ev : Event) (payload : list byte) :
  match json_Unmarshal payload ev with
  | (ev', Some err) =>
      outcome (Process json_Unmarshal ev payload) = Ret (ev', Some err)
      /\ published (Process json_Unmarshal ev payload)
         = [{| subject := error_subject; data := payload |}]
      /\ published_on done_subject (Process json_Unmarshal ev payload) = []
  | (ev', None) =>
      outcome (Process json_Unmarshal ev payload) = Ret (ev', None)
      /\ published (Process json_Unmarshal ev payload) = []
  end
  /\ handed_back (Process json_Unmarshal ev payload)
     = Some (fst (json_Unmarshal payload ev))
  /\ (ErrorMessage (fst (json_Unmarshal payload ev)) = ErrorMessage ev ->
      option_map ErrorMessage (handed_back (Process json_Unmarshal ev payload))
      = Some (ErrorMessage ev)).
Proof.
  rewrite Process_unfold. unfold handed_back.
  destruct (json_Unmarshal payload ev) as [ev' [err|]]; simpl;
    repeat split; try reflexivity; intro H; rewrite H; reflexivity.
Qed.

(** C7: when the event serializes, [Complete] publishes exactly its
    serialization on the done subject and nothing on the error subject; so
    when the payload is the serialization of the event it decodes to,
    [Process] followed by [Complete] republishes the payload itself. *)
Theorem Complete_republishes_serialization (ev : Event) (payload : list byte) :
  json_Marshal ev = OK payload ->
  (outcome (Complete json_Marshal ev) = Ret ev
   /\ published (Complete json_Marshal ev)
      = [{| subject := done_subject; data := payload |}]
   /\ published_on error_subject (Complete json_Marshal ev) = [])
  /\ (forall ev0 : Event,
        json_Unmarshal payload ev0 = (ev, None) ->
        published
          (and_then (Process json_Unmarshal ev0 payload)
                    (fun r => Complete json_Marshal (fst r)))
        = [{| subject := done_subject; data := payload |}]).
Proof.
  intro Hm.
  assert (Hc : Complete json_Marshal ev
               = (Ret ev, [{| subject := done_subject; data := payload |}])).
  { unfold Complete. rewrite Hm. reflexivity. }
  split.
  - rewrite Hc. repeat split; reflexivity.
  - intros ev0 Hu.
    rewrite Process_unfold, Hu. simpl. rewrite Hc. reflexivity.
Qed.

End EventReportFacts.

(** The payload of the test goes through [Process] and [Complete] unchanged. *)
Lemma Complete_republishes_serialization_witness :
  published
    (and_then (Process sample_Unmarshal testEvent valid)
              (fun r => Complete sample_Marshal (fst r)))
  = [{| subject := done_subject; data := valid |}].
Proof.
  apply (proj2 (Complete_republishes_serialization
                  sample_Marshal sample_Unmarshal testEvent (payload := valid)
                  eq_refl)).
  reflexivity.
Defined.

(** When the encoder refuses the event in [Complete] and accepts it in the
    fallback [Error], the error report is followed by a done report with an
    empty payload: [Complete] does not return after [ev.Error(err)]. *)
Lemma Complete_goes_on_after_Error :
  published (Complete reluctant_Marshal testEvent)
  = [ {| subject := error_subject;
         data := list_byte_of_string "json: unsupported value" |};
      {| subject := done_subject; data := [] |} ].
Proof.
  reflexivity.
Qed.

(** The decoder left the event untouched: [Process] hands it back so. *)
Lemma Process_reports_malformed_input_witness :
  option_map ErrorMessage (handed_back (Process typed_Unmarshal zero_Event []))
  = Some (ErrorMessage zero_Event).
Proof.
  apply (proj2 (proj2 (Process_reports_malformed_input typed_Unmarshal zero_Event []))).
  reflexivity.
Defined.

(** C6 as stated fails: the object carries an error member and then a
    [vpc_id] of the wrong type.  The payload does not deserialize, [Process]
    returns the error of the decoder and publishes the bytes on the error
    subject, and the event is left with [ErrorMessage] set to the value of
    the error member. *)
Lemma Process_leaves_a_decoded_error_member :
  snd (typed_Unmarshal type_error_payload zero_Event) = Some ErrUnmarshalType
  /\ outcome (Process typed_Unmarshal zero_Event type_error_payload)
     = Ret (set_ErrorMessage zero_Event "boom", Some ErrUnmarshalType)
  /\ published (Process typed_Unmarshal zero_Event type_error_payload)
     = [{| subject := error_subject; data := type_error_payload |}]
  /\ option_map ErrorMessage
       (handed_back (Process typed_Unmarshal zero_Event type_error_payload))
     = Some "boom"
  /\ ErrorMessage zero_Event = "".
Proof.
  repeat split.
Qed.

(** ** The reports on the wire *)

Lemma Error_go_Marshal (quote : string -> string) (encode_strings : list string -> string)
  (ev : Event) (err : error) :
  Error (go_Marshal quote encode_strings) ev err
  = (Ret (set_ErrorMessage ev (error_Error err)),
     [{| subject := error_subject;
         data := list_byte_of_string
                   (render_object
                      (wire_members quote encode_strings
                         (set_ErrorMessage ev (error_Error err)))) |}]).
Proof.
  rewrite Error_unfold. reflexivity.
Qed.

Lemma wire_field_error (quote : string -> string) (encode_strings : list string -> string)
  (ev : Event) :
  wire_field "error" (wire_members quote encode_strings ev)
  = if is_empty (ErrorMessage ev) then None else Some (quote (ErrorMessage ev)).
Proof.
  unfold wire_field, wire_members. simpl.
  destruct (is_empty (ErrorMessage ev)); reflexivity.
Qed.


(** C8 (amended): [Error(err)] sets [ErrorMessage] to [err.Error()] and
    publishes the serialization of the event so updated on the error subject,
    and nothing on the done subject; when that serialization fails it panics
    and publishes nothing.  With [json.Marshal] the object published has a
    member named error holding the encoded [err.Error()] when that message is
    not empty, and no such member when it is empty, the tag saying
    [omitempty]. *)
Theorem Error_reports_on_error_subject (json_Marshal : Event -> reply (list byte))
  (quote : string -> string) (encode_strings : list string -> string)
  (ev : Event) (err : error) :
  match json_Marshal (set_ErrorMessage ev (error_Error err)) with
  | OK payload =>
      (exists ev', outcome (Error json_Marshal ev err) = Ret ev'
                   /\ ErrorMessage ev' = error_Error err
                   /\ json_Marshal ev' = OK payload)
      /\ published (Error json_Marshal ev err)
         = [{| subject := error_subject; data := payload |}]
      /\ published_on done_subject (Error json_Marshal ev err) = []
  | ERR _ =>
      outcome (Error json_Marshal ev err) = Panic
      /\ published (Error json_Marshal ev err) = []
  end
  /\ published (Error (go_Marshal quote encode_strings) ev err)
     = [{| subject := error_subject;
           data := list_byte_of_string
                     (render_object
                        (wire_members quote encode_strings
                           (set_ErrorMessage ev (error_Error err)))) |}]
  /\ published_on done_subject (Error (go_Marshal quote encode_strings) ev err) = []
  /\ wire_field "error"
       (wire_members quote encode_strings (set_ErrorMessage ev (error_Error err)))
     = (if is_empty (error_Error err) then None else Some (quote (error_Error err)))
  /\ (error_Error err <> "" ->
      exists front,
        wire_members quote encode_strings (set_ErrorMessage ev (error_Error err))
        = front ++ [("error", quote (error_Error err))]
        /\ wire_field "error" front = None).
Proof.
  split.
  - rewrite Error_unfold.
    destruct (json_Marshal (set_ErrorMessage ev (error_Error err))) as [payload|e] eqn:Hm.
    + split; [|split; reflexivity].
      exists (set_ErrorMessage ev (error_Error err)).
      split; [reflexivity | split; [reflexivity | exact Hm]].
    + split; reflexivity.
  - rewrite Error_go_Marshal. split; [reflexivity|]. split; [reflexivity|].
    split; [apply wire_field_error|].
    intro Hne. apply is_empty_false in Hne.
    unfold wire_members. simpl ErrorMessage. rewrite Hne.
    eexists. split; [reflexivity|]. reflexivity.
Qed.

(** The error of the tests: the object published ends with the member
    [error]; an encoder that fails makes [Error] panic. *)
Lemma Error_reports_on_error_subject_witness :
  (exists front,
     wire_members plain_quote plain_strings
       (set_ErrorMessage testEvent (error_Error (errors_New "error")))
     = front ++ [("error", plain_quote "error")]
     /\ wire_field "error" front = None)
  /\ outcome (Error failing_Marshal testEvent (errors_New "error")) = Panic.
Proof.
  pose proof (Error_reports_on_error_subject failing_Marshal plain_quote plain_strings
                testEvent (errors_New "error")) as H.
  split.
  - apply (proj2 (proj2 (proj2 (proj2 H)))). simpl. discriminate.
  - exact (proj1 (proj1 H)).
Defined.

(** C8 as stated fails: for an error whose message is empty, the object
    published has no member named error at all; it is, byte for byte, the
    serialization of the event without an error. *)
Lemma Error_omits_an_empty_error_member :
  error_Error (errors_New "") = ""
  /\ wire_field "error"
       (wire_members plain_quote plain_strings
          (set_ErrorMessage testEvent (error_Error (errors_New ""))))
     = None
  /\ published (Error (go_Marshal plain_quote plain_strings) testEvent (errors_New ""))
     = [{| subject := error_subject; data := valid |}]
  /\ go_Marshal plain_quote plain_strings testEvent = OK valid.
Proof.
  repeat split.
Qed.

(** ** The idempotence check *)

Lemma routes_range_target_first (gwID : string) (pre post : list Route) (route : Route) :
  is_target gwID route = true ->
  forallb (fun r => negb (unreadable r)) pre = true ->
  routes_range (pre ++ route :: post) gwID = Ret true.
Proof.
  intros Ht.
  induction pre as [|x pre IH]; simpl.
  - intros _. unfold is_target in Ht.
    destruct (DestinationCidrBlock route) as [dst|]; [|discriminate].
    destruct (NatGatewayId route) as [gw|]; [|discriminate].
    apply andb_true_iff in Ht. destruct Ht as [Hd Hg].
    rewrite Hd, Hg. reflexivity.
  - unfold unreadable at 1.
    destruct (DestinationCidrBlock x) as [dst|]; simpl; [|discriminate].
    destruct (String.eqb dst default_route); simpl.
    + destruct (NatGatewayId x) as [gw|]; simpl; [|discriminate].
      destruct (String.eqb gw gwID); [reflexivity|]. exact IH.
    + exact IH.
Qed.

Lemma routes_range_unreadable_first (gwID : string) (pre post : list Route) (route : Route) :
  unreadable route = true ->
  forallb (fun r => negb (is_target gwID r)) pre = true ->
  routes_range (pre ++ route :: post) gwID = Panic.
Proof.
  intros Hu.
  induction pre as [|x pre IH]; simpl.
  - intros _. unfold unreadable in Hu.
    destruct (DestinationCidrBlock route) as [dst|]; [|reflexivity].
    destruct (String.eqb dst default_route); [|discriminate].
    destruct (NatGatewayId route); [discriminate|reflexivity].
  - unfold is_target at 1.
    destruct (DestinationCidrBlock x) as [dst|]; simpl; [|reflexivity].
    destruct (String.eqb dst default_route); simpl.
    + destruct (NatGatewayId x) as [gw|]; simpl; [|reflexivity].
      destruct (String.eqb gw gwID); simpl; [discriminate|exact IH].
    + destruct (NatGatewayId x); exact IH.
Qed.

Lemma routes_range_readable (gwID : string) (routes : list Route) :
  forallb (fun r => negb (unreadable r)) routes = true ->
  routes_range routes gwID = Ret (existsb (is_target gwID) routes).
Proof.
  induction routes as [|x routes IH]; simpl; [reflexivity|].
  unfold unreadable at 1, is_target at 1.
  destruct (DestinationCidrBlock x) as [dst|]; simpl; [|discriminate].
  destruct (String.eqb dst default_route); simpl.
  - destruct (NatGatewayId x) as [gw|]; simpl; [|discriminate].
    destruct (String.eqb gw gwID); simpl; [reflexivity|exact IH].
  - destruct (NatGatewayId x); exact IH.
Qed.

Lemma routes_range_false (gwID : string) (routes : list Route) :
  routes_range routes gwID = Ret false ->
  forallb (fun r => negb (unreadable r)) routes = true
  /\ existsb (is_target gwID) routes = false.
Proof.
  induction routes as [|x routes IH]; simpl; [intros _; split; reflexivity|].
  unfold unreadable at 1, is_target at 1.
  destruct (DestinationCidrBlock x) as [dst|]; simpl; [|discriminate].
  destruct (String.eqb dst default_route); simpl.
  - destruct (NatGatewayId x) as [gw|]; simpl; [|discriminate].
    destruct (String.eqb gw gwID); simpl; [discriminate|exact IH].
  - destruct (NatGatewayId x); exact IH.
Qed.

Lemma In_split_first (A : Type) (p : A -> bool) (l : list A) :
  existsb p l = true ->
  exists pre x post, l = pre ++ x :: post /\ p x = true
                     /\ forallb (fun y => negb (p y)) pre = true.
Proof.
  induction l as [|a l IH]; simpl; [discriminate|].
  destruct (p a) eqn:Hp; simpl.
  - intros _. exists [], a, l. repeat split; assumption.
  - intro H. destruct (IH H) as (pre & x & post & Hl & Hx & Hpre).
    exists (a :: pre), x, post. subst l. simpl. rewrite Hp. simpl.
    repeat split; assumption.
Qed.

(** C9 (amended): the check reads the destination CIDR of every route up to
    the first target route, and the NAT gateway ID of those among them whose
    destination is 0.0.0.0/0.  On a table with an unreadable route (no
    destination CIDR, or a default route with no NAT gateway ID) it never
    returns false: it panics when no target route comes before the first
    unreadable route, and returns true otherwise.  On a table whose routes
    are all readable it is total and tells whether a target route exists. *)
Theorem routeTableIsConfigured_unreadable_route (rt : RouteTable) (gwID : string) :
  (existsb unreadable (Routes rt) = true ->
   routeTableIsConfigured (Some rt) gwID <> Ret false)
  /\ (forall pre route post,
        Routes rt = pre ++ route :: post ->
        unreadable route = true ->
        forallb (fun r => negb (is_target gwID r)) pre = true ->
        routeTableIsConfigured (Some rt) gwID = Panic)
  /\ (forall pre route post,
        Routes rt = pre ++ route :: post ->
        is_target gwID route = true ->
        forallb (fun r => negb (unreadable r)) pre = true ->
        routeTableIsConfigured (Some rt) gwID = Ret true)
  /\ (forallb (fun r => negb (unreadable r)) (Routes rt) = true ->
      routeTableIsConfigured (Some rt) gwID
      = Ret (existsb (is_target gwID) (Routes rt))).
Proof.
  unfold routeTableIsConfigured.
  split; [|split; [|split]].
  - intros Hex Hfalse.
    apply routes_range_false in Hfalse. destruct Hfalse as [Hall _].
    apply In_split_first in Hex.
    destruct Hex as (pre & x & post & Hl & Hx & _).
    rewrite Hl, forallb_app in Hall. simpl in Hall. rewrite Hx in Hall.
    simpl in Hall. rewrite andb_false_r in Hall. discriminate.
  - intros pre route post Hl Hu Hpre. rewrite Hl.
    apply routes_range_unreadable_first; assumption.
  - intros pre route post Hl Ht Hpre. rewrite Hl.
    apply routes_range_target_first; assumption.
  - apply routes_range_readable.
Qed.

(** A default route to an internet gateway makes the check panic; the same
    route behind the target route is never read. *)
Lemma routeTableIsConfigured_unreadable_route_witness :
  routeTableIsConfigured (Some (table_of "rtb-1" "subnet-00000001" [local_route; igw_route]))
                         "nat-1" = Panic
  /\ routeTableIsConfigured
       (Some (table_of "rtb-1" "subnet-00000001" [nat_route "nat-1"; endpoint_route]))
       "nat-1" = Ret true.
Proof.
  split.
  - apply (proj1 (proj2 (routeTableIsConfigured_unreadable_route
                           (table_of "rtb-1" "subnet-00000001" [local_route; igw_route])
                           "nat-1"))
             [local_route] igw_route []); reflexivity.
  - apply (proj1 (proj2 (proj2 (routeTableIsConfigured_unreadable_route
                           (table_of "rtb-1" "subnet-00000001"
                                     [nat_route "nat-1"; endpoint_route])
                           "nat-1")))
             [] (nat_route "nat-1") [endpoint_route]); reflexivity.
Defined.

(** C9 as stated fails: a table that holds a route with no destination CIDR
    behind its target route is checked without a panic; the loop returns at
    the target route and never reads the routes after it. *)
Lemma routeTableIsConfigured_returns_before_unreadable_route :
  In endpoint_route
     (Routes (table_of "rtb-1" "subnet-00000001" [nat_route "nat-1"; endpoint_route]))
  /\ DestinationCidrBlock endpoint_route = None
  /\ routeTableIsConfigured
       (Some (table_of "rtb-1" "subnet-00000001" [nat_route "nat-1"; endpoint_route]))
       "nat-1" = Ret true
  /\ routeTableIsConfigured
       (Some (table_of "rtb-1" "subnet-00000001" [nat_route "nat-1"; endpoint_route]))
       "nat-1" <> Panic.
Proof.
  repeat split.
  - simpl. right. left. reflexivity.
  - simpl. discriminate.
Qed.

(** ** The lookup *)

(** C10: when the provider lists one or more tables for the subnet, the
    lookup returns the first of them with a nil error, however many there
    are; when it lists none, the lookup returns a nil table with a nil error;
    when the provider fails, it returns a nil table with the provider's
    error.  It makes the one lookup call in every case. *)
Theorem routingTableBySubnetID_first_table
  (S : Type) (svc : EC2 S) (subnet : string) (s : S) :
  routingTableBySubnetID svc subnet s =
    match DescribeRouteTables svc subnet s with
    | (OK (t :: _), s') =>
        (Ret (Some t, None), s',
         [{| call := DescribeRouteTablesInput subnet; failure := None |}])
    | (OK [], s') =>
        (Ret (None, None), s',
         [{| call := DescribeRouteTablesInput subnet; failure := None |}])
    | (ERR err, s') =>
        (Ret (None, Some err), s',
         [{| call := DescribeRouteTablesInput subnet; failure := Some err |}])
    end.
Proof.
  unfold routingTableBySubnetID, bind, remote, ret.
  destruct (DescribeRouteTables svc subnet s) as [[resp|err] s'].
  - destruct resp as [|t ts]; reflexivity.
  - reflexivity.
Qed.

(** ** One subnet of the loop *)


Section BodyFacts.

Variable S : Type.
Variable svc : EC2 S.
Variable ev : Event.


(** The body of the loop, call by call. *)
Lemma updateNat_body_cases (networkID : string) (s : S) :
  updateNat_body svc ev networkID s =
    match DescribeRouteTables svc networkID s with
    | (ERR e, s1) =>
        (Ret (Some e), s1, [failed (DescribeRouteTablesInput networkID) e])
    | (OK (t :: _), s1) =>
        finish svc ev t s1 [ok (DescribeRouteTablesInput networkID)]
    | (OK [], s1) =>
        match CreateRouteTable svc (VPCID ev) s1 with
        | (ERR e, s2) =>
            (Ret (Some e), s2,
             [ok (DescribeRouteTablesInput networkID);
              failed (CreateRouteTableInput (VPCID ev)) e])
        | (OK None, s2) =>
            (Panic, s2,
             [ok (DescribeRouteTablesInput networkID);
              ok (CreateRouteTableInput (VPCID ev))])
        | (OK (Some t), s2) =>
            match AssociateRouteTable svc (RouteTableId t) networkID s2 with
            | (ERR e, s3) =>
                (Ret (Some e), s3,
                 [ok (DescribeRouteTablesInput networkID);
                  ok (CreateRouteTableInput (VPCID ev));
                  failed (AssociateRouteTableInput (RouteTableId t) networkID) e])
            | (OK _, s3) =>
                finish svc ev t s3
                  [ok (DescribeRouteTablesInput networkID);
                   ok (CreateRouteTableInput (VPCID ev));
                   ok (AssociateRouteTableInput (RouteTableId t) networkID)]
            end
        end
    end.
Proof.
  unfold updateNat_body, createRouteTable, routingTableBySubnetID,
    createNatGatewayRoutes, routeTableIsConfigured, finish, bind, remote, ret,
    panic, pure, ok, failed.
  destruct (DescribeRouteTables svc networkID s) as [[resp|e] s1]; simpl;
    [|reflexivity].
  destruct resp as [|t ts]; simpl.
  - destruct (CreateRouteTable svc (VPCID ev) s1) as [[[t|]|e] s2]; simpl;
      try reflexivity.
    destruct (AssociateRouteTable svc (RouteTableId t) networkID s2) as [[u|e] s3];
      simpl; try reflexivity.
    destruct (routes_range (Routes t) (NatGatewayAWSID ev)) as [[|]|]; simpl;
      try reflexivity.
    destruct (CreateRoute svc (RouteTableId t) default_route (NatGatewayAWSID ev) s3)
      as [[u'|e] s4]; reflexivity.
  - destruct (routes_range (Routes t) (NatGatewayAWSID ev)) as [[|]|]; simpl;
      try reflexivity.
    destruct (CreateRoute svc (RouteTableId t) default_route (NatGatewayAWSID ev) s1)
      as [[u'|e] s4]; reflexivity.
Qed.


Lemma finish_shape (t : RouteTable) (s : S) (before : list Entry)
  (r : result (option error)) (s' : S) (calls : list Entry) :
  failures_of before = [] ->
  finish svc ev t s before = (r, s', calls) ->
  log_shape r calls.
Proof.
  unfold finish. intros Hb H.
  destruct (routes_range (Routes t) (NatGatewayAWSID ev)) as [[|]|].
  - inversion H; subst. exact Hb.
  - destruct (CreateRoute svc (RouteTableId t) default_route (NatGatewayAWSID ev) s)
      as [[u|e] s2]; inversion H; subst; simpl.
    + unfold failures_of in *. rewrite flat_map_app, Hb. reflexivity.
    + eexists _, _. split; [reflexivity|exact Hb].
  - inversion H; subst. exact Hb.
Qed.

Lemma updateNat_body_shape (networkID : string) (s : S)
  (r : result (option error)) (s' : S) (calls : list Entry) :
  updateNat_body svc ev networkID s = (r, s', calls) ->
  log_shape r calls.
Proof.
  rewrite updateNat_body_cases. intro H.
  destruct (DescribeRouteTables svc networkID s) as [[resp|e] s1].
  - destruct resp as [|t ts].
    + destruct (CreateRouteTable svc (VPCID ev) s1) as [[[t|]|e] s2].
      * destruct (AssociateRouteTable svc (RouteTableId t) networkID s2) as [[u|e] s3].
        -- eapply finish_shape; [|exact H]. reflexivity.
        -- inversion H; subst. simpl.
           eexists [ok (DescribeRouteTablesInput networkID);
                    ok (CreateRouteTableInput (VPCID ev))], _.
           split; reflexivity.
      * inversion H; subst. reflexivity.
      * inversion H; subst. simpl.
        eexists [ok (DescribeRouteTablesInput networkID)], _. split; reflexivity.
    + eapply finish_shape; [|exact H]. reflexivity.
  - inversion H; subst. simpl. eexists [], _. split; reflexivity.
Qed.

Lemma failures_of_app (a b : list Entry) :
  failures_of (a ++ b) = failures_of a ++ failures_of b.
Proof.
  unfold failures_of. apply flat_map_app.
Qed.

Lemma failures_of_none_no_failed (calls before after : list Entry) (c : Call) (e : error) :
  failures_of calls = [] ->
  calls <> before ++ failed c e :: after.
Proof.
  intros Hn Heq. subst calls.
  rewrite failures_of_app in Hn. simpl in Hn.
  destruct (failures_of before); discriminate.
Qed.

(** In a log of the shape above, a failed call is the last one and its error
    is the result. *)
Lemma log_shape_failed (r : result (option error)) (calls before after : list Entry)
  (c : Call) (e : error) :
  log_shape r calls ->
  calls = before ++ failed c e :: after ->
  r = Ret (Some e) /\ after = [].
Proof.
  intros Hs Heq.
  destruct r as [[e0|]|]; simpl in Hs;
    try (exfalso; eapply failures_of_none_no_failed; eassumption).
  destruct Hs as (b0 & c0 & Hc & Hb0).
  rewrite Hc in Heq.
  assert (Hf : failures_of (b0 ++ [failed c0 e0])
               = failures_of (before ++ failed c e :: after)) by (rewrite Heq; reflexivity).
  rewrite !failures_of_app in Hf. simpl in Hf. rewrite Hb0 in Hf. simpl in Hf.
  destruct after as [|x after] using rev_ind.
  - apply app_inj_tail in Heq. destruct Heq as [_ Heq].
    inversion Heq; subst. split; reflexivity.
  - exfalso. clear IHafter.
    change (before ++ failed c e :: after ++ [x])
      with (before ++ (failed c e :: after) ++ [x]) in Heq.
    rewrite app_assoc in Heq.
    apply app_inj_tail in Heq. destruct Heq as [Heq _].
    rewrite Heq in Hb0. rewrite failures_of_app in Hb0. simpl in Hb0.
    destruct (failures_of before); discriminate.
Qed.

End BodyFacts.

(** ** The loop over the routed subnets *)

Lemma failures_cons (it : Iteration) (its : list Iteration) :
  failures (it :: its) = failures_of (it_calls it) ++ failures its.
Proof.
  reflexivity.
Qed.

Lemma updateNat_range_fail_fast (S : Type) (svc : EC2 S) (ev : Event) (ids : list string) :
  forall (s : S) (r : result (option error)) (s' : S) (its : list Iteration),
    updateNat_range svc ev ids s = (r, s', its) ->
    map it_subnet its = firstn (List.length its) ids
    /\ (forall its1 it its2 before c e after,
          its = its1 ++ it :: its2 ->
          it_calls it = before ++ failed c e :: after ->
          r = Ret (Some e) /\ after = [] /\ its2 = [])
    /\ (forall e, r = Ret (Some e) ->
          failures its = [e]
          /\ exists its1 it before c,
               its = its1 ++ [it] /\ it_calls it = before ++ [failed c e])
    /\ (r = Ret None -> map it_subnet its = ids /\ failures its = []).
Proof.
  induction ids as [|networkID rest IH]; intros s r s' its H; simpl in H.
  - inversion H; subst. simpl.
    split; [reflexivity|]. split; [|split].
    + intros its1 it its2 before c e after Hits. destruct its1; discriminate.
    + intros e He. discriminate.
    + intros _. split; reflexivity.
  - destruct (updateNat_body svc ev networkID s) as [[rb s1] calls] eqn:Hb.
    pose proof (updateNat_body_shape _ _ _ _ Hb) as Hshape.
    assert (Hstop : rb <> Ret None ->
              r = rb /\ its = [{| it_subnet := networkID; it_calls := calls |}]).
    { intro Hne. destruct rb as [[e|]|]; try (exfalso; apply Hne; reflexivity);
        inversion H; subst; split; reflexivity. }
    destruct rb as [[e0|]|].
    + destruct (Hstop ltac:(discriminate)) as [Hr Hits]. subst r its. clear Hstop.
      simpl. split; [reflexivity|]. split; [|split].
      * intros its1 it its2 before c e after Hits Hcalls.
        destruct its1 as [|x its1]; simpl in Hits.
        -- inversion Hits; subst. simpl in Hcalls.
           assert (Hlast : Ret (Some e0) = Ret (Some e) /\ after = [])
             by (eapply log_shape_failed; eassumption).
           destruct Hlast as [Hr Ha].
           repeat split; assumption.
        -- inversion Hits. destruct its1; discriminate.
      * intros e He. inversion He; subst e0. simpl in Hshape.
        destruct Hshape as (before & c & Hcalls & Hbefore).
        split.
        -- unfold failures. simpl. rewrite app_nil_r, Hcalls, failures_of_app, Hbefore.
           reflexivity.
        -- exists [], {| it_subnet := networkID; it_calls := calls |}, before, c.
           split; [reflexivity|exact Hcalls].
      * intro Hnil. discriminate.
    + clear Hstop.
      destruct (updateNat_range svc ev rest s1) as [[r2 s2] its2] eqn:Hrest.
      inversion H; subst. clear H.
      destruct (IH _ _ _ _ Hrest) as (Hmap & Hfail & Herr & Hnil).
      simpl in Hshape.
      split; [simpl; rewrite Hmap; reflexivity|]. split; [|split].
      * intros its1 it its3 before c e after Hits Hcalls.
        destruct its1 as [|x its1]; simpl in Hits.
        -- inversion Hits; subst. simpl in Hcalls. exfalso.
           eapply failures_of_none_no_failed; eassumption.
        -- inversion Hits; subst. eapply Hfail; [reflexivity|exact Hcalls].
      * intros e He. destruct (Herr e He) as (Hf & its1 & it & before & c & Hits & Hcalls).
        split.
        -- rewrite failures_cons. simpl. rewrite Hshape. exact Hf.
        -- exists ({| it_subnet := networkID; it_calls := calls |} :: its1), it, before, c.
           split; [rewrite Hits; reflexivity|exact Hcalls].
      * intro Hr. destruct (Hnil Hr) as [Hm Hf].
        split; [simpl; rewrite Hm; reflexivity|].
        rewrite failures_cons. simpl. rewrite Hshape. exact Hf.
    + destruct (Hstop ltac:(discriminate)) as [Hr Hits]. subst r its. clear Hstop.
      simpl in Hshape.
      simpl. split; [reflexivity|]. split; [|split].
      * intros its1 it its2 before c e after Hits Hcalls.
        destruct its1 as [|x its1]; simpl in Hits.
        -- inversion Hits; subst. simpl in Hcalls. exfalso.
           eapply failures_of_none_no_failed; eassumption.
        -- inversion Hits. destruct its1; discriminate.
      * intros e He. discriminate.
      * intro Hnil. discriminate.
Qed.

(** ** A subnet that is already configured *)

(** C2 (amended): when the lookup returns a table that holds the target route
    (0.0.0.0/0 to the event's NAT gateway), the loop makes no call for the
    subnet but the lookup.  It goes on to the next subnet when every route in
    front of the first target route is readable; when one of them is
    unreadable the check panics, and the run with it: it ends in the panic
    right after that lookup, with no later subnet visited. *)
Theorem target_route_means_no_mutation (S : Type) (svc : EC2 S) (ev : Event)
  (networkID : string) (s s1 : S) (t : RouteTable) (ts : list RouteTable) :
  DescribeRouteTables svc networkID s = (OK (t :: ts), s1) ->
  existsb (is_target (NatGatewayAWSID ev)) (Routes t) = true ->
  (exists r,
     updateNat_body svc ev networkID s
     = (r, s1, [ok (DescribeRouteTablesInput networkID)])
     /\ (r = Ret None \/ r = Panic))
  /\ (forall pre route post,
        Routes t = pre ++ route :: post ->
        is_target (NatGatewayAWSID ev) route = true ->
        forallb (fun x => negb (unreadable x)) pre = true ->
        updateNat_body svc ev networkID s
        = (Ret None, s1, [ok (DescribeRouteTablesInput networkID)])
        /\ forall rest,
             updateNat_range svc ev (networkID :: rest) s
             = (fst (fst (updateNat_range svc ev rest s1)),
                snd (fst (updateNat_range svc ev rest s1)),
                {| it_subnet := networkID;
                   it_calls := [ok (DescribeRouteTablesInput networkID)] |}
                  :: snd (updateNat_range svc ev rest s1)))
  /\ (forall pre route post,
        Routes t = pre ++ route :: post ->
        is_target (NatGatewayAWSID ev) route = true ->
        forallb (fun x => negb (is_target (NatGatewayAWSID ev) x)) pre = true ->
        existsb unreadable pre = true ->
        updateNat_body svc ev networkID s
        = (Panic, s1, [ok (DescribeRouteTablesInput networkID)])
        /\ forall rest,
             updateNat_range svc ev (networkID :: rest) s
             = (Panic, s1,
                [{| it_subnet := networkID;
                    it_calls := [ok (DescribeRouteTablesInput networkID)] |}])).
Proof.
  intros Hd Hex.
  split; [|split].
  - rewrite updateNat_body_cases, Hd. unfold finish.
    destruct (routes_range (Routes t) (NatGatewayAWSID ev)) as [[|]|] eqn:Hr.
    + exists (Ret None). split; [reflexivity|left; reflexivity].
    + apply routes_range_false in Hr. destruct Hr as [_ Hr]. congruence.
    + exists Panic. split; [reflexivity|right; reflexivity].
  - intros pre route post Hl Ht Hpre.
    assert (Hb : updateNat_body svc ev networkID s
                 = (Ret None, s1, [ok (DescribeRouteTablesInput networkID)])).
    { rewrite updateNat_body_cases, Hd. unfold finish.
      rewrite Hl, (routes_range_target_first _ _ _ _ Ht Hpre). reflexivity. }
    split; [exact Hb|].
    intro rest. simpl. rewrite Hb.
    destruct (updateNat_range svc ev rest s1) as [[r2 s2] its2]. reflexivity.
  - intros pre route post Hl Ht Hfirst Hbad.
    destruct (In_split_first _ _ Hbad) as (p1 & u & p2 & Hpre & Hu & _).
    assert (Hp1 : forallb (fun x => negb (is_target (NatGatewayAWSID ev) x)) p1 = true).
    { rewrite Hpre, forallb_app in Hfirst.
      apply andb_true_iff in Hfirst. exact (proj1 Hfirst). }
    assert (Hb : updateNat_body svc ev networkID s
                 = (Panic, s1, [ok (DescribeRouteTablesInput networkID)])).
    { rewrite updateNat_body_cases, Hd. unfold finish.
      rewrite Hl, Hpre, <- app_assoc. simpl.
      rewrite (routes_range_unreadable_first _ _ _ _ Hu Hp1). reflexivity. }
    split; [exact Hb|].
    intro rest. simpl. rewrite Hb. reflexivity.
Qed.

(** ** The reference provider *)

Lemma length_zeros (n : nat) : String.length (zeros n) = n.
Proof.
  induction n as [|n IH]; simpl; [reflexivity|]. rewrite IH. reflexivity.
Qed.

Lemma length_app (a b : string) :
  String.length (a ++ b) = String.length a + String.length b.
Proof.
  induction a as [|c a IH]; simpl; [reflexivity|]. rewrite IH. reflexivity.
Qed.

(** The ID of a new table is the ID of no table in place. *)
Lemma fresh_id_unused (ts : list RouteTable) (t : RouteTable) :
  In t ts -> has_id (fresh_id ts) t = false.
Proof.
  intro Hin. unfold has_id.
  destruct (RouteTableId t) as [i|] eqn:Hid; [|reflexivity].
  apply String.eqb_neq. intro Heq.
  assert (Hle : id_length t <= list_max (map id_length ts)).
  { assert (Hall : Forall (fun k => k <= list_max (map id_length ts)) (map id_length ts))
      by (apply list_max_le; apply Nat.le_refl).
    rewrite Forall_forall in Hall. apply Hall. apply in_map. exact Hin. }
  assert (Hlen : id_length t = String.length (fresh_id ts))
    by (unfold id_length; rewrite Hid, Heq; reflexivity).
  rewrite Hlen in Hle.
  unfold fresh_id in Hle. rewrite length_app, length_zeros in Hle.
  simpl in Hle. lia.
Qed.

Lemma map_unchanged (A : Type) (f : A -> A) (l : list A) :
  (forall x, In x l -> f x = x) -> map f l = l.
Proof.
  intro H. rewrite <- (map_id l) at 2. apply map_ext_in. exact H.
Qed.

Lemma filter_map_commute (A : Type) (p : A -> bool) (f : A -> A) (l : list A) :
  (forall x, p (f x) = p x) -> filter p (map f l) = map f (filter p l).
Proof.
  intro H. induction l as [|x l IH]; simpl; [reflexivity|].
  rewrite H. destruct (p x); simpl; rewrite IH; reflexivity.
Qed.

Lemma associated_add_route (subnet id : string) (r : Route) (t : RouteTable) :
  associated subnet (add_route id r t) = associated subnet t.
Proof.
  unfold add_route. destruct (has_id id t); reflexivity.
Qed.

Lemma associated_add_association (subnet id other : string) (t : RouteTable) :
  subnet <> other ->
  associated subnet (add_association id other t) = associated subnet t.
Proof.
  intro Hne. unfold add_association. destruct (has_id id t); [|reflexivity].
  unfold associated. simpl. rewrite existsb_app. simpl.
  apply String.eqb_neq in Hne. rewrite Hne. rewrite !orb_false_r. reflexivity.
Qed.

Lemma lookup_new_table (subnet vpc : string) (ts ts0 : list RouteTable) :
  lookup subnet (ts ++ [new_table vpc ts0]) = lookup subnet ts.
Proof.
  unfold lookup. rewrite filter_app. simpl. apply app_nil_r.
Qed.

Lemma lookup_add_route (subnet id : string) (r : Route) (ts : list RouteTable) :
  lookup subnet (map (add_route id r) ts) = map (add_route id r) (lookup subnet ts).
Proof.
  apply filter_map_commute. intro t. apply associated_add_route.
Qed.

Lemma lookup_add_association (subnet id other : string) (ts : list RouteTable) :
  subnet <> other ->
  lookup subnet (map (add_association id other) ts)
  = map (add_association id other) (lookup subnet ts).
Proof.
  intro Hne. apply filter_map_commute. intro t.
  apply associated_add_association. exact Hne.
Qed.

Lemma lookup_nil_iff (subnet : string) (ts : list RouteTable) :
  lookup subnet ts = [] <-> existsb (associated subnet) ts = false.
Proof.
  unfold lookup. induction ts as [|t ts IH]; simpl; [tauto|].
  destruct (associated subnet t); simpl; [split; discriminate|exact IH].
Qed.

Lemma routes_range_true_app (gwID : string) (l l' : list Route) :
  routes_range l gwID = Ret true -> routes_range (l ++ l') gwID = Ret true.
Proof.
  induction l as [|x l IH]; simpl; [discriminate|].
  destruct (DestinationCidrBlock x) as [dst|]; [|discriminate].
  destruct (String.eqb dst default_route).
  - destruct (NatGatewayId x) as [gw|]; [|discriminate].
    destruct (String.eqb gw gwID); [reflexivity|exact IH].
  - exact IH.
Qed.

Lemma is_target_nat_route (gwID : string) :
  is_target gwID {| DestinationCidrBlock := Some default_route;
                    NatGatewayId := Some gwID; GatewayId := None |} = true.
Proof.
  unfold is_target. simpl. rewrite String.eqb_refl. reflexivity.
Qed.

(** The subnets that are configured stay so under each change the provider
    makes. *)
Lemma configured_new_table (gwID subnet vpc : string) (ts : list RouteTable) :
  configured gwID subnet ts -> configured gwID subnet (ts ++ [new_table vpc ts]).
Proof.
  unfold configured. rewrite lookup_new_table. tauto.
Qed.

Lemma configured_add_route (gwID subnet id : string) (r : Route) (ts : list RouteTable) :
  configured gwID subnet ts -> configured gwID subnet (map (add_route id r) ts).
Proof.
  intros (t & rest & Hl & Hr). unfold configured.
  rewrite lookup_add_route, Hl. simpl.
  exists (add_route id r t), (map (add_route id r) rest).
  split; [reflexivity|].
  unfold add_route. destruct (has_id id t); simpl; [|exact Hr].
  apply routes_range_true_app. exact Hr.
Qed.

Lemma configured_add_association (gwID subnet id other : string) (ts : list RouteTable) :
  existsb (associated other) ts = false ->
  configured gwID subnet ts ->
  configured gwID subnet (map (add_association id other) ts).
Proof.
  intros Hfree (t & rest & Hl & Hr).
  assert (Hne : subnet <> other).
  { intro Heq. subst other. apply lookup_nil_iff in Hfree. congruence. }
  unfold configured. rewrite (lookup_add_association _ _ Hne), Hl. simpl.
  exists (add_association id other t), (map (add_association id other) rest).
  split; [reflexivity|].
  unfold add_association. destruct (has_id id t); exact Hr.
Qed.

(** Each operation of the reference provider either fails on schedule and
    leaves the tables as they are, or acts on them. *)
Lemma mem_DescribeRouteTables_cases (subnet : string) (m : Mem) :
  exists fs,
    mem_DescribeRouteTables subnet m
    = (OK (lookup subnet (tables m)), {| tables := tables m; faults := fs |})
    \/ exists e, mem_DescribeRouteTables subnet m
                 = (ERR e, {| tables := tables m; faults := fs |}).
Proof.
  unfold mem_DescribeRouteTables, scheduled, lookup.
  destruct (faults m) as [|[e|] fs].
  - exists []. left. reflexivity.
  - exists fs. right. exists e. reflexivity.
  - exists fs. left. reflexivity.
Qed.

Lemma mem_CreateRouteTable_cases (vpc : string) (m : Mem) :
  exists fs,
    mem_CreateRouteTable vpc m
    = (OK (Some (new_table vpc (tables m))),
       {| tables := tables m ++ [new_table vpc (tables m)]; faults := fs |})
    \/ exists e, mem_CreateRouteTable vpc m
                 = (ERR e, {| tables := tables m; faults := fs |}).
Proof.
  unfold mem_CreateRouteTable, scheduled.
  destruct (faults m) as [|[e|] fs].
  - exists []. left. reflexivity.
  - exists fs. right. exists e. reflexivity.
  - exists fs. left. reflexivity.
Qed.

Lemma mem_AssociateRouteTable_cases (rtid : option string) (subnet : string) (m : Mem) :
  exists fs,
    (exists id u,
       rtid = Some id
       /\ existsb (has_id id) (tables m) = true
       /\ existsb (associated subnet) (tables m) = false
       /\ mem_AssociateRouteTable rtid subnet m
          = (OK u, {| tables := map (add_association id subnet) (tables m);
                      faults := fs |}))
    \/ exists e, mem_AssociateRouteTable rtid subnet m
                 = (ERR e, {| tables := tables m; faults := fs |}).
Proof.
  unfold mem_AssociateRouteTable, scheduled.
  destruct (faults m) as [|[e|] fs];
    try (exists fs; right; exists e; reflexivity);
    (destruct rtid as [id|]; simpl;
     [ destruct (existsb (has_id id) (tables m)) eqn:Hid; simpl;
       [ destruct (existsb (associated subnet) (tables m)) eqn:Hs; simpl |] |]);
    eexists; try (right; eexists; reflexivity);
    left; exists id, tt; repeat split; try assumption; reflexivity.
Qed.

Lemma mem_CreateRoute_cases (rtid : option string) (cidr gw : string) (m : Mem) :
  exists fs,
    (exists id u,
       rtid = Some id
       /\ existsb (has_id id) (tables m) = true
       /\ mem_CreateRoute rtid cidr gw m
          = (OK u, {| tables := map (add_route id {| DestinationCidrBlock := Some cidr;
                                                     NatGatewayId := Some gw;
                                                     GatewayId := None |}) (tables m);
                      faults := fs |}))
    \/ exists e, mem_CreateRoute rtid cidr gw m
                 = (ERR e, {| tables := tables m; faults := fs |}).
Proof.
  unfold mem_CreateRoute, scheduled.
  destruct (faults m) as [|[e|] fs];
    try (exists fs; right; exists e; reflexivity);
    (destruct rtid as [id|]; simpl;
     [ destruct (existsb (has_id id) (tables m)) eqn:Hid; simpl |]);
    eexists; try (right; eexists; reflexivity);
    left; exists id, tt; repeat split; try assumption; reflexivity.
Qed.

(** ** One subnet against the reference provider *)


Section MemBodyFacts.

Variable ev : Event.

Lemma mem_finish_invariant (P : list RouteTable -> Prop) (t : RouteTable) (m : Mem)
  (before : list Entry) (r : result (option error)) (m' : Mem) (calls : list Entry) :
  (forall ts id route, P ts -> P (map (add_route id route) ts)) ->
  finish MemEC2 ev t m before = (r, m', calls) ->
  P (tables m) -> P (tables m').
Proof.
  intros Hroute H HP. unfold finish in H. mem_ops.
  destruct (routes_range (Routes t) (NatGatewayAWSID ev)) as [[|]|];
    try (mem_done H; exact HP).
  destruct (mem_CreateRoute_cases (RouteTableId t) default_route (NatGatewayAWSID ev) m)
    as (fs & [(id & u & _ & _ & Hc) | (e & Hc)]);
    rewrite Hc in H; mem_done H; auto.
Qed.

(** A property of the tables that every change of the provider keeps is kept
    by the body of the loop. *)
Lemma mem_body_invariant (P : list RouteTable -> Prop) (networkID : string) (m : Mem)
  (r : result (option error)) (m' : Mem) (calls : list Entry) :
  (forall ts vpc, P ts -> P (ts ++ [new_table vpc ts])) ->
  (forall ts id, P ts -> existsb (associated networkID) ts = false ->
                 P (map (add_association id networkID) ts)) ->
  (forall ts id route, P ts -> P (map (add_route id route) ts)) ->
  updateNat_body MemEC2 ev networkID m = (r, m', calls) ->
  P (tables m) -> P (tables m').
Proof.
  intros Hnew Hassoc Hroute H HP.
  rewrite updateNat_body_cases in H. mem_ops.
  destruct (mem_DescribeRouteTables_cases networkID m) as (fs & [Hd | (e & Hd)]);
    rewrite Hd in H; [|mem_done H; exact HP].
  destruct (lookup networkID (tables m)) as [|t rest].
  - destruct (mem_CreateRouteTable_cases (VPCID ev) {| tables := tables m; faults := fs |})
      as (fs1 & [Hc | (e & Hc)]); rewrite Hc in H; [|mem_done H; exact HP].
    simpl in H.
    destruct (mem_AssociateRouteTable_cases
                (Some (fresh_id (tables m))) networkID
                {| tables := tables m ++ [new_table (VPCID ev) (tables m)]; faults := fs1 |})
      as (fs2 & [(id & u & Hid & _ & Hfree & Ha) | (e & Ha)]);
      rewrite Ha in H; [|mem_done H; apply Hnew; exact HP].
    eapply mem_finish_invariant; [exact Hroute|exact H|].
    simpl. apply Hassoc; [apply Hnew; exact HP|exact Hfree].
  - eapply mem_finish_invariant; [exact Hroute|exact H|exact HP].
Qed.

(** A configured subnet stays configured whatever subnet the loop is at. *)
Lemma mem_body_keeps_configured (subnet networkID : string) (m : Mem)
  (r : result (option error)) (m' : Mem) (calls : list Entry) :
  updateNat_body MemEC2 ev networkID m = (r, m', calls) ->
  configured (NatGatewayAWSID ev) subnet (tables m) ->
  configured (NatGatewayAWSID ev) subnet (tables m').
Proof.
  apply mem_body_invariant with (P := configured (NatGatewayAWSID ev) subnet).
  - intros ts vpc. apply configured_new_table.
  - intros ts id HP Hfree. apply configured_add_association; assumption.
  - intros ts id route. apply configured_add_route.
Qed.

(** A subnet with no table keeps having none while the loop is at another
    subnet. *)
Lemma mem_body_keeps_unassociated (subnet networkID : string) (m : Mem)
  (r : result (option error)) (m' : Mem) (calls : list Entry) :
  subnet <> networkID ->
  updateNat_body MemEC2 ev networkID m = (r, m', calls) ->
  lookup subnet (tables m) = [] ->
  lookup subnet (tables m') = [].
Proof.
  intro Hne.
  apply mem_body_invariant with (P := fun ts => lookup subnet ts = []).
  - intros ts vpc HP. rewrite lookup_new_table. exact HP.
  - intros ts id HP _. rewrite (lookup_add_association _ _ Hne), HP. reflexivity.
  - intros ts id route HP. rewrite lookup_add_route, HP. reflexivity.
Qed.

(** At a configured subnet the body makes the lookup and nothing else. *)
Lemma mem_body_configured (networkID : string) (m : Mem)
  (r : result (option error)) (m' : Mem) (calls : list Entry) :
  configured (NatGatewayAWSID ev) networkID (tables m) ->
  updateNat_body MemEC2 ev networkID m = (r, m', calls) ->
  tables m' = tables m
  /\ map call calls = [DescribeRouteTablesInput networkID]
  /\ r <> Panic.
Proof.
  intros (t & rest & Hl & Hr) H.
  rewrite updateNat_body_cases in H. mem_ops.
  destruct (mem_DescribeRouteTables_cases networkID m) as (fs & [Hd | (e & Hd)]);
    rewrite Hd in H.
  - rewrite Hl in H. unfold finish in H. rewrite Hr in H. mem_done H.
    repeat split; discriminate.
  - mem_done H. repeat split; discriminate.
Qed.

(** At a subnet with no table, a body that goes through makes the four calls
    and leaves the subnet configured. *)
Lemma mem_body_creates (networkID : string) (m m' : Mem) (calls : list Entry) :
  lookup networkID (tables m) = [] ->
  updateNat_body MemEC2 ev networkID m = (Ret None, m', calls) ->
  map call calls
  = [DescribeRouteTablesInput networkID;
     CreateRouteTableInput (VPCID ev);
     AssociateRouteTableInput (Some (fresh_id (tables m))) networkID;
     CreateRouteInput (Some (fresh_id (tables m))) default_route (NatGatewayAWSID ev)]
  /\ configured (NatGatewayAWSID ev) networkID (tables m').
Proof.
  intros Hl H.
  rewrite updateNat_body_cases in H. mem_ops.
  destruct (mem_DescribeRouteTables_cases networkID m) as (fs & [Hd | (e & Hd)]);
    rewrite Hd in H; [|discriminate].
  rewrite Hl in H.
  destruct (mem_CreateRouteTable_cases (VPCID ev) {| tables := tables m; faults := fs |})
    as (fs1 & [Hc | (e & Hc)]); rewrite Hc in H; [|discriminate].
  simpl in H.
  destruct (mem_AssociateRouteTable_cases
              (Some (fresh_id (tables m))) networkID
              {| tables := tables m ++ [new_table (VPCID ev) (tables m)]; faults := fs1 |})
    as (fs2 & [(id & u & Hid & _ & _ & Ha) | (e & Ha)]);
    rewrite Ha in H; [|discriminate].
  inversion Hid; subst id. clear Hid.
  unfold finish in H. simpl in H. mem_ops.
  match type of H with
  | context [mem_CreateRoute ?a ?b ?c ?d] =>
      destruct (mem_CreateRoute_cases a b c d)
        as (fs3 & [(id & u' & Hid & _ & Hr) | (e & Hr)]);
      rewrite Hr in H; [|discriminate]
  end.
  inversion Hid; subst id. clear Hid.
  mem_done H. split; [reflexivity|].
  unfold configured.
  rewrite lookup_add_route.
  assert (Hassoc : map (add_association (fresh_id (tables m)) networkID)
                       (tables m ++ [new_table (VPCID ev) (tables m)])
                   = tables m ++ [{| RouteTableId := Some (fresh_id (tables m));
                                     VpcId := Some (VPCID ev);
                                     Routes := [];
                                     Associations := [networkID] |}]).
  { rewrite map_app. f_equal.
    - apply map_unchanged. intros t Hin. unfold add_association.
      rewrite (fresh_id_unused _ _ Hin). reflexivity.
    - simpl. unfold add_association, has_id. simpl.
      rewrite String.eqb_refl. reflexivity. }
  rewrite Hassoc. unfold lookup at 1. rewrite filter_app.
  fold (lookup networkID (tables m)). rewrite Hl. simpl.
  unfold associated at 1. simpl. rewrite String.eqb_refl. simpl.
  eexists _, _. split; [reflexivity|].
  unfold add_route, has_id. simpl. rewrite String.eqb_refl. simpl.
  rewrite !String.eqb_refl. reflexivity.
Qed.

(** A body that goes through leaves its subnet configured. *)
Lemma mem_body_configures (networkID : string) (m m' : Mem) (calls : list Entry) :
  updateNat_body MemEC2 ev networkID m = (Ret None, m', calls) ->
  configured (NatGatewayAWSID ev) networkID (tables m').
Proof.
  intro H.
  destruct (lookup networkID (tables m)) as [|t rest] eqn:Hl.
  - eapply proj2, mem_body_creates; eassumption.
  - rewrite updateNat_body_cases in H. mem_ops.
    destruct (mem_DescribeRouteTables_cases networkID m) as (fs & [Hd | (e & Hd)]);
      rewrite Hd in H; [|discriminate].
    rewrite Hl in H. unfold finish in H. mem_ops.
    destruct (routes_range (Routes t) (NatGatewayAWSID ev)) as [[|]|] eqn:Hr;
      [| |discriminate].
    + mem_done H. exists t, rest. split; assumption.
    + match type of H with
      | context [mem_CreateRoute ?a ?b ?c ?d] =>
          destruct (mem_CreateRoute_cases a b c d)
            as (fs3 & [(id & u' & Hid & _ & Hc) | (e & Hc)]);
          rewrite Hc in H; [|discriminate]
      end.
      mem_done H. unfold configured. rewrite lookup_add_route, Hl. simpl.
      eexists _, _. split; [reflexivity|].
      unfold add_route, has_id. rewrite Hid, String.eqb_refl. simpl.
      apply routes_range_false in Hr. destruct Hr as [Hread _].
      apply routes_range_target_first; [apply is_target_nat_route|exact Hread].
Qed.

End MemBodyFacts.

(** ** The whole run against the reference provider *)

Lemma updateNat_range_cons (S : Type) (svc : EC2 S) (ev : Event)
  (networkID : string) (rest : list string) (s : S)
  (r : result (option error)) (s' : S) (its : list Iteration) :
  updateNat_range svc ev (networkID :: rest) s = (r, s', its) ->
  exists rb s1 calls,
    updateNat_body svc ev networkID s = (rb, s1, calls)
    /\ ((rb = Ret None
         /\ exists its', updateNat_range svc ev rest s1 = (r, s', its')
                         /\ its = {| it_subnet := networkID; it_calls := calls |} :: its')
        \/ (rb <> Ret None /\ r = rb /\ s' = s1
            /\ its = [{| it_subnet := networkID; it_calls := calls |}])).
Proof.
  simpl. intro H.
  destruct (updateNat_body svc ev networkID s) as [[rb s1] calls].
  exists rb, s1, calls. split; [reflexivity|].
  destruct rb as [[e|]|].
  - right. inversion H; subst. repeat split; discriminate.
  - left. split; [reflexivity|].
    destruct (updateNat_range svc ev rest s1) as [[r2 s2] its2].
    inversion H; subst. exists its2. split; reflexivity.
  - right. inversion H; subst. repeat split; discriminate.
Qed.

Lemma mutating_calls_for_cons (subnet : string) (it : Iteration) (its : list Iteration) :
  mutating_calls_for subnet (it :: its)
  = filter mutating (if String.eqb (it_subnet it) subnet
                     then map call (it_calls it) else [])
    ++ mutating_calls_for subnet its.
Proof.
  unfold mutating_calls_for. simpl. apply filter_app.
Qed.

Section MemRunFacts.

Variable ev : Event.

Lemma mem_range_keeps_configured (subnet : string) (ids : list string) :
  forall m r m' its,
    updateNat_range MemEC2 ev ids m = (r, m', its) ->
    configured (NatGatewayAWSID ev) subnet (tables m) ->
    configured (NatGatewayAWSID ev) subnet (tables m').
Proof.
  induction ids as [|networkID rest IH]; intros m r m' its H Hc.
  - inversion H; subst. exact Hc.
  - apply updateNat_range_cons in H.
    destruct H as (rb & m1 & calls & Hb & [(_ & its' & Hrest & _) | (_ & _ & Hm & _)]).
    + eapply IH; [exact Hrest|]. eapply mem_body_keeps_configured; eassumption.
    + subst m'. eapply mem_body_keeps_configured; eassumption.
Qed.

Lemma mem_range_configured_quiet (subnet : string) (ids : list string) :
  forall m r m' its,
    updateNat_range MemEC2 ev ids m = (r, m', its) ->
    configured (NatGatewayAWSID ev) subnet (tables m) ->
    mutating_calls_for subnet its = [].
Proof.
  induction ids as [|networkID rest IH]; intros m r m' its H Hc.
  - inversion H; subst. reflexivity.
  - apply updateNat_range_cons in H.
    destruct H as (rb & m1 & calls & Hb & Hcases).
    assert (Hhead : filter mutating (if String.eqb networkID subnet
                                     then map call calls else []) = []).
    { destruct (String.eqb networkID subnet) eqn:Heq; [|reflexivity].
      apply String.eqb_eq in Heq. subst networkID.
      destruct (@mem_body_configured ev _ _ _ _ _ Hc Hb) as (_ & Hcalls & _).
      rewrite Hcalls. reflexivity. }
    assert (Hc1 : configured (NatGatewayAWSID ev) subnet (tables m1))
      by (eapply mem_body_keeps_configured; eassumption).
    destruct Hcases as [(_ & its' & Hrest & Hits) | (_ & _ & _ & Hits)];
      subst its; rewrite mutating_calls_for_cons; simpl; rewrite Hhead; simpl.
    + eapply IH; eassumption.
    + reflexivity.
Qed.

(** After a run that returned nil every subnet of the list is configured. *)
Lemma mem_range_configures (ids : list string) :
  forall m m' its,
    updateNat_range MemEC2 ev ids m = (Ret None, m', its) ->
    forall subnet, In subnet ids ->
      configured (NatGatewayAWSID ev) subnet (tables m').
Proof.
  induction ids as [|networkID rest IH]; intros m m' its H subnet Hin.
  - destruct Hin.
  - apply updateNat_range_cons in H.
    destruct H as (rb & m1 & calls & Hb & [(Hrb & its' & Hrest & _) | (Hne & Hr & _)]);
      [|congruence].
    subst rb. destruct Hin as [Heq | Hin].
    + subst subnet. eapply mem_range_keeps_configured; [exact Hrest|].
      eapply mem_body_configures; exact Hb.
    + eapply IH; eassumption.
Qed.

(** A run over subnets that are all configured makes lookups only. *)
Lemma mem_range_idempotent (ids : list string) :
  forall m r m' its,
    (forall subnet, In subnet ids ->
       configured (NatGatewayAWSID ev) subnet (tables m)) ->
    updateNat_range MemEC2 ev ids m = (r, m', its) ->
    filter mutating (all_calls its) = [] /\ tables m' = tables m /\ r <> Panic.
Proof.
  induction ids as [|networkID rest IH]; intros m r m' its Hall H.
  - inversion H; subst. repeat split; discriminate.
  - apply updateNat_range_cons in H.
    destruct H as (rb & m1 & calls & Hb & Hcases).
    destruct (@mem_body_configured ev _ _ _ _ _ (Hall networkID (or_introl eq_refl)) Hb)
      as (Ht & Hcalls & Hnp).
    destruct Hcases as [(_ & its' & Hrest & Hits) | (_ & Hr & Hm & Hits)]; subst its.
    + assert (Hall1 : forall subnet, In subnet rest ->
                        configured (NatGatewayAWSID ev) subnet (tables m1)).
      { intros subnet Hin. rewrite Ht. apply Hall. right. exact Hin. }
      destruct (IH _ _ _ _ Hall1 Hrest) as (Hq & Ht' & Hnp').
      unfold all_calls in *. simpl. rewrite filter_app, Hcalls, Hq.
      repeat split; [congruence|exact Hnp'].
    + subst r m'. unfold all_calls. simpl. rewrite app_nil_r, Hcalls.
      repeat split; assumption.
Qed.

(** At the first visit of a subnet with no table the run makes the three
    mutating calls, and none at any later visit. *)
Lemma mem_range_creates (subnet : string) (ids : list string) :
  forall m m' its,
    updateNat_range MemEC2 ev ids m = (Ret None, m', its) ->
    In subnet ids ->
    lookup subnet (tables m) = [] ->
    exists id,
      mutating_calls_for subnet its
      = [CreateRouteTableInput (VPCID ev);
         AssociateRouteTableInput (Some id) subnet;
         CreateRouteInput (Some id) default_route (NatGatewayAWSID ev)].
Proof.
  induction ids as [|networkID rest IH]; intros m m' its H Hin Hl.
  - destruct Hin.
  - apply updateNat_range_cons in H.
    destruct H as (rb & m1 & calls & Hb & [(Hrb & its' & Hrest & Hits) | (Hne & Hr & _)]);
      [|congruence].
    subst rb its. rewrite mutating_calls_for_cons. simpl.
    destruct (String.eqb networkID subnet) eqn:Heq.
    + apply String.eqb_eq in Heq. subst networkID.
      destruct (@mem_body_creates ev _ _ _ _ Hl Hb) as [Hcalls Hc].
      rewrite Hcalls. simpl.
      rewrite (@mem_range_configured_quiet subnet rest _ _ _ _ Hrest Hc).
      exists (fresh_id (tables m)). reflexivity.
    + apply String.eqb_neq in Heq. simpl.
      destruct Hin as [Hin | Hin]; [congruence|].
      eapply IH; [exact Hrest|exact Hin|].
      eapply mem_body_keeps_unassociated; [|exact Hb|exact Hl]. congruence.
Qed.

End MemRunFacts.

(** C1 (amended): against the reference provider, when a run returns nil,
    every subnet of the list that had no table before the run got exactly
    three mutating calls, in this order: create-route-table in the event's
    VPC, associate of the new table with the subnet, create-route of
    0.0.0.0/0 to the event's NAT gateway on that table.  A second run from
    the resulting tables, whatever calls fail in it, makes none of the three
    calls for the subnet; it makes no mutating call at all and leaves the
    tables as they are. *)
Theorem updateNat_converges (ev : Event) (m m' : Mem) (its : list Iteration)
  (subnet : string) :
  updateNat mem_New ev m = (Ret None, m', its) ->
  In subnet (RoutedNetworkAWSIDs ev) ->
  lookup subnet (tables m) = [] ->
  (exists id,
     mutating_calls_for subnet its
     = [CreateRouteTableInput (VPCID ev);
        AssociateRouteTableInput (Some id) subnet;
        CreateRouteInput (Some id) default_route (NatGatewayAWSID ev)])
  /\ forall fs r2 m2 its2,
       updateNat mem_New ev {| tables := tables m'; faults := fs |} = (r2, m2, its2) ->
       mutating_calls_for subnet its2 = []
       /\ filter mutating (all_calls its2) = []
       /\ tables m2 = tables m'
       /\ r2 <> Panic.
Proof.
  unfold updateNat, mem_New. intros H Hin Hl.
  split.
  - eapply mem_range_creates; eassumption.
  - intros fs r2 m2 its2 H2.
    pose proof (@mem_range_configures ev _ _ _ _ H) as Hall.
    split.
    + eapply mem_range_configured_quiet; [exact H2|]. simpl. apply Hall. exact Hin.
    + apply (@mem_range_idempotent ev (RoutedNetworkAWSIDs ev)
               {| tables := tables m'; faults := fs |} r2 m2 its2);
        [exact Hall|exact H2].
Qed.

(** ** Sample runs *)

(** Against a provider with no table, the run for two subnets returns nil and
    the first subnet gets its three calls. *)
Lemma updateNat_converges_witness :
  exists id,
    mutating_calls_for "subnet-00000001"
      (snd (updateNat mem_New natEvent empty_provider))
    = [CreateRouteTableInput "vpc-0000000";
       AssociateRouteTableInput (Some id) "subnet-00000001";
       CreateRouteInput (Some id) default_route "nat-1"].
Proof.
  apply (proj1 (@updateNat_converges natEvent empty_provider
                  (snd (fst (updateNat mem_New natEvent empty_provider)))
                  (snd (updateNat mem_New natEvent empty_provider))
                  "subnet-00000001"
                  eq_refl (or_introl eq_refl) eq_refl)).
Defined.

(** C1 as stated fails: when the provider refuses the create-route-table
    call, the first subnet (in the list, with no table) gets one mutating
    call and the second (in the list, with no table) gets none; [updateNat]
    returns the provider's error at once. *)
Lemma updateNat_stops_at_refused_create :
  In "subnet-00000001" (RoutedNetworkAWSIDs natEvent)
  /\ In "subnet-00000002" (RoutedNetworkAWSIDs natEvent)
  /\ lookup "subnet-00000001" (tables throttled_provider) = []
  /\ lookup "subnet-00000002" (tables throttled_provider) = []
  /\ fst (fst (updateNat mem_New natEvent throttled_provider))
     = Ret (Some ErrRequestLimitExceeded)
  /\ mutating_calls_for "subnet-00000001"
       (snd (updateNat mem_New natEvent throttled_provider))
     = [CreateRouteTableInput "vpc-0000000"]
  /\ mutating_calls_for "subnet-00000002"
       (snd (updateNat mem_New natEvent throttled_provider))
     = [].
Proof.
  repeat split; simpl; auto.
Qed.

(** With the target route behind the local route, the first subnet gets the
    lookup only and the loop goes on; behind the route of a gateway endpoint,
    the run panics after the lookup. *)
Lemma target_route_means_no_mutation_witness :
  updateNat_body MemEC2 natEvent "subnet-00000001" configured_provider
  = (Ret None, configured_provider, [ok (DescribeRouteTablesInput "subnet-00000001")])
  /\ updateNat_range MemEC2 natEvent ["subnet-00000001"; "subnet-00000002"]
                      endpoint_provider
     = (Panic, endpoint_provider,
        [{| it_subnet := "subnet-00000001";
            it_calls := [ok (DescribeRouteTablesInput "subnet-00000001")] |}]).
Proof.
  split.
  - apply (proj1 (proj2 (@target_route_means_no_mutation
                           Mem MemEC2 natEvent "subnet-00000001"
                           configured_provider configured_provider
                           (table_of "rtb-1" "subnet-00000001"
                                     [local_route; nat_route "nat-1"])
                           [] eq_refl eq_refl))
                 [local_route] (nat_route "nat-1") [] eq_refl eq_refl eq_refl).
  - apply (proj2 (proj2 (@target_route_means_no_mutation
                           Mem MemEC2 natEvent "subnet-00000001"
                           endpoint_provider endpoint_provider
                           (table_of "rtb-1" "subnet-00000001"
                                     [endpoint_route; nat_route "nat-1"])
                           [] eq_refl eq_refl))
                 [endpoint_route] (nat_route "nat-1") [] eq_refl eq_refl eq_refl eq_refl).
Defined.

(** C2 as stated fails: the table of the first subnet holds the target route,
    behind the route of a gateway endpoint, which has no destination CIDR;
    the check panics at that route, so the run does not go on to the second
    subnet (no call is made for it). *)
Lemma updateNat_panics_before_target_route :
  existsb (is_target (NatGatewayAWSID natEvent))
          [endpoint_route; nat_route "nat-1"] = true
  /\ lookup "subnet-00000001" (tables endpoint_provider)
     = [table_of "rtb-1" "subnet-00000001" [endpoint_route; nat_route "nat-1"]]
  /\ updateNat mem_New natEvent endpoint_provider
     = (Panic, endpoint_provider,
        [{| it_subnet := "subnet-00000001";
            it_calls := [ok (DescribeRouteTablesInput "subnet-00000001")] |}])
  /\ calls_for "subnet-00000002"
       (snd (updateNat mem_New natEvent endpoint_provider)) = [].
Proof.
  repeat split.
Qed.

(** * Further properties of the reconciler *)

(** ** Find-or-create, for any provider *)

Lemma createRouteTable_cases (S : Type) (svc : EC2 S) (vpc subnet : string) (s : S) :
  createRouteTable svc vpc subnet s =
    match DescribeRouteTables svc subnet s with
    | (ERR e, s1) =>
        (Ret (None, Some e), s1, [failed (DescribeRouteTablesInput subnet) e])
    | (OK (t :: _), s1) =>
        (Ret (Some t, None), s1, [ok (DescribeRouteTablesInput subnet)])
    | (OK [], s1) =>
        match CreateRouteTable svc vpc s1 with
        | (ERR e, s2) =>
            (Ret (None, Some e), s2,
             [ok (DescribeRouteTablesInput subnet);
              failed (CreateRouteTableInput vpc) e])
        | (OK None, s2) =>
            (Panic, s2,
             [ok (DescribeRouteTablesInput subnet); ok (CreateRouteTableInput vpc)])
        | (OK (Some t), s2) =>
            match AssociateRouteTable svc (RouteTableId t) subnet s2 with
            | (ERR e, s3) =>
                (Ret (None, Some e), s3,
                 [ok (DescribeRouteTablesInput subnet);
                  ok (CreateRouteTableInput vpc);
                  failed (AssociateRouteTableInput (RouteTableId t) subnet) e])
            | (OK _, s3) =>
                (Ret (Some t, None), s3,
                 [ok (DescribeRouteTablesInput subnet);
                  ok (CreateRouteTableInput vpc);
                  ok (AssociateRouteTableInput (RouteTableId t) subnet)])
            end
        end
    end.
Proof.
  unfold createRouteTable, routingTableBySubnetID, bind, remote, ret, panic, ok, failed.
  destruct (DescribeRouteTables svc subnet s) as [[resp|e] s1]; simpl; [|reflexivity].
  destruct resp as [|t ts]; simpl; [|reflexivity].
  destruct (CreateRouteTable svc vpc s1) as [[[t|]|e] s2]; simpl; try reflexivity.
  destruct (AssociateRouteTable svc (RouteTableId t) subnet s2) as [[u|e] s3];
    reflexivity.
Qed.

(** X1: whatever the provider does, [createRouteTable] returns a table
    exactly when it returns no error: the pair is a table with a nil error or
    a nil table with an error, never nil with nil.  When the lookup finds a
    table it is that table, and no create or associate call is made; a table
    that was created is returned only after its association succeeded. *)
Theorem createRouteTable_table_xor_error (S : Type) (svc : EC2 S) (vpc subnet : string)
  (s s' : S) (rt : option RouteTable) (err : option error) (calls : list Entry) :
  createRouteTable svc vpc subnet s = (Ret (rt, err), s', calls) ->
  ((exists t, rt = Some t /\ err = None /\ failures_of calls = [])
   \/ (exists e, rt = None /\ err = Some e /\ failures_of calls = [e]))
  /\ (forall t ts s1,
        DescribeRouteTables svc subnet s = (OK (t :: ts), s1) ->
        rt = Some t /\ s' = s1
        /\ map call calls = [DescribeRouteTablesInput subnet])
  /\ (In (CreateRouteTableInput vpc) (map call calls) ->
      rt <> None ->
      exists t, rt = Some t
                /\ map call calls = [DescribeRouteTablesInput subnet;
                                     CreateRouteTableInput vpc;
                                     AssociateRouteTableInput (RouteTableId t) subnet]).
Proof.
  rewrite createRouteTable_cases. intro H.
  destruct (DescribeRouteTables svc subnet s) as [[[|t ts]|e] s1].
  - destruct (CreateRouteTable svc vpc s1) as [[[t|]|e] s2].
    + destruct (AssociateRouteTable svc (RouteTableId t) subnet s2) as [[u|e] s3];
        inversion H; subst; clear H.
      * split; [left; exists t; repeat split|].
        split; [intros t0 ts0 s0 Hd; discriminate|].
        intros _ _. exists t. split; reflexivity.
      * split; [right; exists e; repeat split|].
        split; [intros t0 ts0 s0 Hd; discriminate|].
        intros _ Hne. exfalso. apply Hne. reflexivity.
    + discriminate.
    + inversion H; subst; clear H.
      split; [right; exists e; repeat split|].
      split; [intros t0 ts0 s0 Hd; discriminate|].
      intros _ Hne. exfalso. apply Hne. reflexivity.
  - inversion H; subst; clear H.
    split; [left; exists t; repeat split|].
    split.
    + intros t0 ts0 s0 Hd. inversion Hd; subst. repeat split.
    + simpl. intros [Hc | []]. discriminate.
  - inversion H; subst; clear H.
    split; [right; exists e; repeat split|].
    split; [intros t0 ts0 s0 Hd; discriminate|].
    intros _ Hne. exfalso. apply Hne. reflexivity.
Qed.

(** With two routed subnets and no table yet, the first subnet gets a table
    created and associated. *)
Lemma createRouteTable_table_xor_error_witness :
  (exists t, fst (fst (createRouteTable MemEC2 "vpc-0000000" "subnet-00000001"
                         empty_provider))
             = Ret (Some t, None))
  /\ (exists e, fst (fst (createRouteTable MemEC2 "vpc-0000000" "subnet-00000001"
                            throttled_provider))
                = Ret (None, Some e)).
Proof.
  split.
  - destruct (proj1 (@createRouteTable_table_xor_error
                       Mem MemEC2 "vpc-0000000" "subnet-00000001" empty_provider
                       _ _ _ _ eq_refl)) as [(t & Hrt & Herr & _) | (e & Hrt & _)].
    + exists t. inversion Hrt; subst. reflexivity.
    + discriminate Hrt.
  - destruct (proj1 (@createRouteTable_table_xor_error
                       Mem MemEC2 "vpc-0000000" "subnet-00000001" throttled_provider
                       _ _ _ _ eq_refl)) as [(t & Hrt & _) | (e & Hrt & Herr & _)].
    + discriminate Hrt.
    + exists e. inversion Herr; subst. reflexivity.
Defined.

(** X2: when the lookup finds a table and the check says that it lacks the
    target route, the loop makes one more call, create-route of 0.0.0.0/0 to
    the event's NAT gateway on the ID of the first table found; it creates
    and associates no table, and the reply of the provider decides whether
    the loop goes on or returns the error. *)
Theorem found_table_gets_the_route (S : Type) (svc : EC2 S) (ev : Event)
  (networkID : string) (s s1 : S) (t : RouteTable) (ts : list RouteTable) :
  DescribeRouteTables svc networkID s = (OK (t :: ts), s1) ->
  routeTableIsConfigured (Some t) (NatGatewayAWSID ev) = Ret false ->
  updateNat_body svc ev networkID s =
    match CreateRoute svc (RouteTableId t) default_route (NatGatewayAWSID ev) s1 with
    | (OK _, s2) =>
        (Ret None, s2,
         [ok (DescribeRouteTablesInput networkID);
          ok (CreateRouteInput (RouteTableId t) default_route (NatGatewayAWSID ev))])
    | (ERR e, s2) =>
        (Ret (Some e), s2,
         [ok (DescribeRouteTablesInput networkID);
          failed (CreateRouteInput (RouteTableId t) default_route (NatGatewayAWSID ev)) e])
    end.
Proof.
  intros Hd Hc. simpl in Hc.
  rewrite updateNat_body_cases, Hd. unfold finish. rewrite Hc.
  destruct (CreateRoute svc (RouteTableId t) default_route (NatGatewayAWSID ev) s1)
    as [[u|e] s2]; reflexivity.
Qed.

(** A table with the local route only gets the route to the NAT gateway. *)
Lemma found_table_gets_the_route_witness :
  map call (snd (updateNat_body MemEC2 natEvent "subnet-00000001" unrouted_provider))
  = [DescribeRouteTablesInput "subnet-00000001";
     CreateRouteInput (Some "rtb-1") default_route "nat-1"].
Proof.
  rewrite (@found_table_gets_the_route Mem MemEC2 natEvent "subnet-00000001"
             unrouted_provider unrouted_provider
             (table_of "rtb-1" "subnet-00000001" [local_route]) [] eq_refl eq_refl).
  reflexivity.
Defined.

Lemma updateNat_body_calls (S : Type) (svc : EC2 S) (ev : Event) (networkID : string)
  (s : S) (r : result (option error)) (s' : S) (calls : list Entry) :
  updateNat_body svc ev networkID s = (r, s', calls) ->
  body_calls ev networkID (map call calls).
Proof.
  rewrite updateNat_body_cases. unfold finish, body_calls. intro H.
  destruct (DescribeRouteTables svc networkID s) as [[[|t ts]|e] s1].
  - destruct (CreateRouteTable svc (VPCID ev) s1) as [[[t|]|e] s2].
    + exists (RouteTableId t).
      destruct (AssociateRouteTable svc (RouteTableId t) networkID s2) as [[u|e] s3].
      * destruct (routes_range (Routes t) (NatGatewayAWSID ev)) as [[|]|].
        -- inversion H; subst. simpl. tauto.
        -- destruct (CreateRoute svc (RouteTableId t) default_route
                       (NatGatewayAWSID ev) s3) as [[u'|e] s4];
             inversion H; subst; simpl; tauto.
        -- inversion H; subst. simpl. tauto.
      * inversion H; subst. simpl. tauto.
    + exists None. inversion H; subst. simpl. tauto.
    + exists None. inversion H; subst. simpl. tauto.
  - exists (RouteTableId t).
    destruct (routes_range (Routes t) (NatGatewayAWSID ev)) as [[|]|].
    + inversion H; subst. simpl. tauto.
    + destruct (CreateRoute svc (RouteTableId t) default_route
                  (NatGatewayAWSID ev) s1) as [[u'|e] s4];
        inversion H; subst; simpl; tauto.
    + inversion H; subst. simpl. tauto.
  - exists None. inversion H; subst. simpl. tauto.
Qed.

Lemma body_calls_length (ev : Event) (subnet : string) (cs : list Call) :
  body_calls ev subnet cs -> 1 <= List.length cs <= 4.
Proof.
  intros (rtid & [H | [H | [H | [H | H]]]]); subst cs; simpl; lia.
Qed.

Lemma all_calls_cons (it : Iteration) (its : list Iteration) :
  all_calls (it :: its) = map call (it_calls it) ++ all_calls its.
Proof.
  reflexivity.
Qed.

Lemma updateNat_range_calls (S : Type) (svc : EC2 S) (ev : Event) (ids : list string) :
  forall (s : S) (r : result (option error)) (s' : S) (its : list Iteration),
    updateNat_range svc ev ids s = (r, s', its) ->
    (forall it, In it its ->
       In (it_subnet it) ids
       /\ body_calls ev (it_subnet it) (map call (it_calls it)))
    /\ List.length its <= List.length ids
    /\ List.length its <= List.length (all_calls its) <= 4 * List.length ids.
Proof.
  induction ids as [|networkID rest IH]; intros s r s' its H.
  - inversion H; subst. simpl. split; [intros it []|lia].
  - apply updateNat_range_cons in H.
    destruct H as (rb & s1 & calls & Hb & Hcases).
    pose proof (updateNat_body_calls _ _ _ _ Hb) as Hpat.
    pose proof (body_calls_length Hpat) as Hlen. rewrite length_map in Hlen.
    destruct Hcases as [(_ & its' & Hrest & Hits) | (_ & _ & _ & Hits)]; subst its.
    + destruct (IH _ _ _ _ Hrest) as (Hall & Hn & Hc).
      split; [|split].
      * intros it [Hit | Hit].
        -- subst it. simpl. split; [left; reflexivity|exact Hpat].
        -- destruct (Hall it Hit) as [Hin Hp]. split; [right; exact Hin|exact Hp].
      * simpl. lia.
      * rewrite all_calls_cons, List.length_app, length_map. simpl. lia.
    + split; [|split].
      * intros it [Hit | []]. subst it. simpl. split; [left; reflexivity|exact Hpat].
      * simpl. lia.
      * rewrite all_calls_cons, List.length_app, length_map. simpl. lia.
Qed.

(** ** The check over a longer list of routes *)

Lemma routes_range_app (gwID : string) (l l' : list Route) :
  routes_range (l ++ l') gwID =
    match routes_range l gwID with
    | Ret false => routes_range l' gwID
    | r => r
    end.
Proof.
  induction l as [|x l IH]; simpl; [reflexivity|].
  destruct (DestinationCidrBlock x) as [dst|]; [|reflexivity].
  destruct (String.eqb dst default_route).
  - destruct (NatGatewayId x) as [gw|]; [|reflexivity].
    destruct (String.eqb gw gwID); [reflexivity|exact IH].
  - exact IH.
Qed.

(** X4: the answer of the check on a table is settled by the routes in
    order: when routes are added behind those of a table, a true and a panic
    stay what they are, and a false becomes the answer on the added routes
    alone.  So a table that was configured stays configured when the provider
    adds routes behind, and a table that was not becomes configured with the
    very route [createNatGatewayRoutes] asks for. *)
Theorem routeTableIsConfigured_with_more_routes (rt rt' : RouteTable) (gwID : string)
  (more : list Route) :
  Routes rt' = Routes rt ++ more ->
  routeTableIsConfigured (Some rt') gwID
  = match routeTableIsConfigured (Some rt) gwID with
    | Ret false => routes_range more gwID
    | r => r
    end
  /\ (routeTableIsConfigured (Some rt) gwID = Ret false ->
      more = [{| DestinationCidrBlock := Some default_route;
                 NatGatewayId := Some gwID;
                 GatewayId := None |}] ->
      routeTableIsConfigured (Some rt') gwID = Ret true).
Proof.
  intro Hr. unfold routeTableIsConfigured. rewrite Hr, routes_range_app.
  split; [reflexivity|].
  intros Hf Hm. rewrite Hf, Hm. simpl. rewrite !String.eqb_refl. reflexivity.
Qed.

(** The local route first, the route to the NAT gateway added behind it. *)
Lemma routeTableIsConfigured_with_more_routes_witness :
  routeTableIsConfigured
    (Some (table_of "rtb-1" "subnet-00000001" [local_route; nat_route "nat-1"]))
    "nat-1" = Ret true.
Proof.
  apply (proj2 (@routeTableIsConfigured_with_more_routes
                  (table_of "rtb-1" "subnet-00000001" [local_route])
                  (table_of "rtb-1" "subnet-00000001" [local_route; nat_route "nat-1"])
                  "nat-1" [nat_route "nat-1"] eq_refl) eq_refl eq_refl).
Defined.

(** ** What a run leaves in the reference provider *)

(** X5: against the reference provider, after a run that returned nil every
    subnet of the list has a table associated, and the check on the first
    table the lookup returns for it says true: the table holds the route
    0.0.0.0/0 to the event's NAT gateway where the check finds it. *)
Theorem updateNat_establishes_routes (ev : Event) (m m' : Mem) (its : list Iteration) :
  updateNat mem_New ev m = (Ret None, m', its) ->
  forall subnet, In subnet (RoutedNetworkAWSIDs ev) ->
    exists t rest,
      lookup subnet (tables m') = t :: rest
      /\ routeTableIsConfigured (Some t) (NatGatewayAWSID ev) = Ret true
      /\ existsb (is_target (NatGatewayAWSID ev)) (Routes t) = true.
Proof.
  unfold updateNat, mem_New. intros H subnet Hin.
  destruct (@mem_range_configures ev _ _ _ _ H subnet Hin) as (t & rest & Hl & Hr).
  exists t, rest. split; [exact Hl|]. split; [exact Hr|].
  destruct (existsb (is_target (NatGatewayAWSID ev)) (Routes t)) eqn:Hex; [reflexivity|].
  exfalso.
  assert (Hno : forall l, existsb (is_target (NatGatewayAWSID ev)) l = false ->
                          routes_range l (NatGatewayAWSID ev) <> Ret true).
  { clear. induction l as [|x l IH]; simpl; [discriminate|].
    unfold is_target at 1.
    destruct (DestinationCidrBlock x) as [dst|]; [|discriminate].
    destruct (String.eqb dst default_route); simpl.
    - destruct (NatGatewayId x) as [gw|]; [|discriminate].
      destruct (String.eqb gw (NatGatewayAWSID ev)); simpl; [discriminate|exact IH].
    - destruct (NatGatewayId x); exact IH. }
  exact (Hno _ Hex Hr).
Qed.

(** After the run against the empty provider both subnets have their route. *)
Lemma updateNat_establishes_routes_witness :
  exists t rest,
    lookup "subnet-00000002"
           (tables (snd (fst (updateNat mem_New natEvent empty_provider))))
    = t :: rest
    /\ routeTableIsConfigured (Some t) "nat-1" = Ret true
    /\ existsb (is_target "nat-1") (Routes t) = true.
Proof.
  apply (@updateNat_establishes_routes natEvent empty_provider _ _ eq_refl
           "subnet-00000002").
  simpl. right. left. reflexivity.
Defined.

Lemma map_id_lookup_add_association (subnet id other : string) (ts : list RouteTable) :
  subnet <> other ->
  map RouteTableId (lookup subnet (map (add_association id other) ts))
  = map RouteTableId (lookup subnet ts).
Proof.
  intro Hne. rewrite (lookup_add_association _ _ Hne), map_map.
  apply map_ext. intro t. unfold add_association. destruct (has_id id t); reflexivity.
Qed.

Lemma map_id_lookup_add_route (subnet id : string) (r : Route) (ts : list RouteTable) :
  map RouteTableId (lookup subnet (map (add_route id r) ts))
  = map RouteTableId (lookup subnet ts).
Proof.
  rewrite lookup_add_route, map_map.
  apply map_ext. intro t. unfold add_route. destruct (has_id id t); reflexivity.
Qed.

Lemma mem_range_keeps_other_subnets (ev : Event) (subnet : string) (ids : list string) :
  ~ In subnet ids ->
  forall m r m' its,
    updateNat_range MemEC2 ev ids m = (r, m', its) ->
    map RouteTableId (lookup subnet (tables m'))
    = map RouteTableId (lookup subnet (tables m)).
Proof.
  induction ids as [|networkID rest IH]; intros Hnot m r m' its H.
  - inversion H; subst. reflexivity.
  - assert (Hne : subnet <> networkID) by (intro Heq; apply Hnot; left; congruence).
    assert (Hrest : ~ In subnet rest) by (intro Hin; apply Hnot; right; exact Hin).
    apply updateNat_range_cons in H.
    destruct H as (rb & m1 & calls & Hb & Hcases).
    assert (H1 : map RouteTableId (lookup subnet (tables m1))
                 = map RouteTableId (lookup subnet (tables m))).
    { apply (@mem_body_invariant ev
                 (fun ts => map RouteTableId (lookup subnet ts)
                            = map RouteTableId (lookup subnet (tables m)))
                 networkID m rb m1 calls).
      - intros ts vpc HP. rewrite lookup_new_table. exact HP.
      - intros ts id HP _. rewrite (map_id_lookup_add_association _ _ Hne). exact HP.
      - intros ts id route HP. rewrite map_id_lookup_add_route. exact HP.
      - exact Hb.
      - reflexivity. }
    destruct Hcases as [(_ & its' & Hr & _) | (_ & _ & Hm & _)].
    + rewrite (IH Hrest _ _ _ _ Hr). exact H1.
    + subst m'. exact H1.
Qed.

(** X6: against the reference provider, a run, however it ends, leaves the
    associations of every subnet outside the event's list as they were: the
    lookup for such a subnet returns tables with the same IDs, in the same
    order, before and after; a subnet outside the list that had no table
    still has none. *)
Theorem updateNat_keeps_other_subnets (ev : Event) (m m' : Mem)
  (r : result (option error)) (its : list Iteration) (subnet : string) :
  updateNat mem_New ev m = (r, m', its) ->
  ~ In subnet (RoutedNetworkAWSIDs ev) ->
  map RouteTableId (lookup subnet (tables m'))
  = map RouteTableId (lookup subnet (tables m))
  /\ (lookup subnet (tables m) = [] -> lookup subnet (tables m') = []).
Proof.
  unfold updateNat, mem_New. intros H Hnot.
  pose proof (@mem_range_keeps_other_subnets ev subnet _ Hnot _ _ _ _ H) as Hids.
  split; [exact Hids|].
  intro Hl. rewrite Hl in Hids. simpl in Hids.
  destruct (lookup subnet (tables m')); [reflexivity|discriminate].
Qed.

(** The public subnet of the tests is not routed and gets no table. *)
Lemma updateNat_keeps_other_subnets_witness :
  lookup "subnet-00000000"
         (tables (snd (fst (updateNat mem_New natEvent empty_provider)))) = [].
Proof.
  apply (proj2 (@updateNat_keeps_other_subnets natEvent empty_provider _ _ _
                  "subnet-00000000" eq_refl
                  ltac:(simpl; intros [H | [H | []]]; discriminate))).
  reflexivity.
Defined.

(** X7: against the reference provider, when the association of a table just
    created fails, [createRouteTable] returns the error and leaves the new
    table behind: the provider holds one table more, associated with no
    subnet, and the subnet still has no table, so that the next run creates
    another one. *)
Theorem createRouteTable_leaves_the_table_behind (vpc subnet : string) (m m' : Mem)
  (e : error) (calls : list Entry) (rtid : option string) :
  createRouteTable MemEC2 vpc subnet m = (Ret (None, Some e), m', calls) ->
  map call calls = [DescribeRouteTablesInput subnet;
                    CreateRouteTableInput vpc;
                    AssociateRouteTableInput rtid subnet] ->
  tables m' = tables m ++ [new_table vpc (tables m)]
  /\ Associations (new_table vpc (tables m)) = []
  /\ lookup subnet (tables m') = []
  /\ forall fs,
       map call (snd (createRouteTable MemEC2 vpc subnet
                        {| tables := tables m'; faults := None :: None :: fs |}))
       = [DescribeRouteTablesInput subnet;
          CreateRouteTableInput vpc;
          AssociateRouteTableInput (Some (fresh_id (tables m'))) subnet].
Proof.
  rewrite createRouteTable_cases. mem_ops. intros H Hcalls.
  destruct (mem_DescribeRouteTables_cases subnet m) as (fs0 & [Hd | (e0 & Hd)]);
    rewrite Hd in H; [|inversion H; subst; discriminate].
  destruct (lookup subnet (tables m)) as [|t rest] eqn:Hl; [|discriminate].
  destruct (mem_CreateRouteTable_cases vpc {| tables := tables m; faults := fs0 |})
    as (fs1 & [Hc | (e1 & Hc)]); rewrite Hc in H;
    [|inversion H; subst; discriminate].
  simpl in H.
  destruct (mem_AssociateRouteTable_cases
              (Some (fresh_id (tables m))) subnet
              {| tables := tables m ++ [new_table vpc (tables m)]; faults := fs1 |})
    as (fs2 & [(id & u & _ & _ & _ & Ha) | (e2 & Ha)]);
    rewrite Ha in H; [discriminate|].
  inversion H; subst; clear H. simpl.
  assert (Hl' : lookup subnet (tables m ++ [new_table vpc (tables m)]) = [])
    by (rewrite lookup_new_table; exact Hl).
  split; [reflexivity|]. split; [reflexivity|]. split; [exact Hl'|].
  intro fs. rewrite createRouteTable_cases. mem_ops.
  unfold mem_DescribeRouteTables, scheduled. simpl.
  fold (lookup subnet (tables m ++ [new_table vpc (tables m)])). rewrite Hl'.
  unfold mem_CreateRouteTable, scheduled. simpl.
  match goal with
  | |- context [mem_AssociateRouteTable ?a ?b ?c] =>
      destruct (mem_AssociateRouteTable a b c) as [[u|e3] m3]
  end; reflexivity.
Qed.

(** The association refused: one table stays behind, bound to no subnet. *)
Lemma createRouteTable_leaves_the_table_behind_witness :
  tables (snd (fst (createRouteTable MemEC2 "vpc-0000000" "subnet-00000001"
                      associate_refused_provider)))
  = [new_table "vpc-0000000" []]
  /\ lookup "subnet-00000001"
       (tables (snd (fst (createRouteTable MemEC2 "vpc-0000000" "subnet-00000001"
                            associate_refused_provider)))) = [].
Proof.
  pose proof (@createRouteTable_leaves_the_table_behind
                "vpc-0000000" "subnet-00000001" associate_refused_provider
                _ _ _ _ eq_refl eq_refl) as H.
  split; [exact (proj1 H)|exact (proj1 (proj2 (proj2 H)))].
Defined.

(** ** A provider that serves every call *)

Lemma scheduled_no_faults (A : Type)
  (op : list RouteTable -> reply A * list RouteTable) (m : Mem) :
  faults m = [] ->
  scheduled op m = (fst (op (tables m)), {| tables := snd (op (tables m)); faults := [] |}).
Proof.
  intro H. unfold scheduled. rewrite H. destruct (op (tables m)); reflexivity.
Qed.

Lemma has_id_add_association (id a b : string) (t : RouteTable) :
  has_id id (add_association a b t) = has_id id t.
Proof.
  unfold add_association. destruct (has_id a t); reflexivity.
Qed.

Lemma workable_new_table (vpc : string) (ts : list RouteTable) :
  workable (new_table vpc ts) = true.
Proof.
  reflexivity.
Qed.

Lemma workable_add_association (id subnet : string) (t : RouteTable) :
  workable (add_association id subnet t) = workable t.
Proof.
  unfold add_association. destruct (has_id id t); reflexivity.
Qed.

Lemma workable_add_route (id gw : string) (t : RouteTable) :
  workable t = true ->
  workable (add_route id {| DestinationCidrBlock := Some default_route;
                            NatGatewayId := Some gw;
                            GatewayId := None |} t) = true.
Proof.
  unfold add_route, workable. destruct (has_id id t); [|tauto]. simpl.
  destruct (RouteTableId t); [|discriminate].
  intro H. rewrite forallb_app, H. reflexivity.
Qed.

Lemma forallb_map_same (A : Type) (p : A -> bool) (f : A -> A) (l : list A) :
  (forall x, p x = true -> p (f x) = true) ->
  forallb p l = true -> forallb p (map f l) = true.
Proof.
  intro Hf. induction l as [|x l IH]; simpl; [reflexivity|].
  intro H. apply andb_true_iff in H. destruct H as [Hx Hl].
  rewrite (Hf _ Hx), (IH Hl). reflexivity.
Qed.

Lemma mem_DescribeRouteTables_served (subnet : string) (m : Mem) :
  faults m = [] ->
  mem_DescribeRouteTables subnet m
  = (OK (lookup subnet (tables m)), {| tables := tables m; faults := [] |}).
Proof.
  intro H. unfold mem_DescribeRouteTables. rewrite (scheduled_no_faults _ _ H).
  reflexivity.
Qed.

Lemma mem_CreateRouteTable_served (vpc : string) (m : Mem) :
  faults m = [] ->
  mem_CreateRouteTable vpc m
  = (OK (Some (new_table vpc (tables m))),
     {| tables := tables m ++ [new_table vpc (tables m)]; faults := [] |}).
Proof.
  intro H. unfold mem_CreateRouteTable. rewrite (scheduled_no_faults _ _ H).
  reflexivity.
Qed.

Lemma mem_AssociateRouteTable_served (id subnet : string) (m : Mem) :
  faults m = [] ->
  existsb (has_id id) (tables m) = true ->
  existsb (associated subnet) (tables m) = false ->
  mem_AssociateRouteTable (Some id) subnet m
  = (OK tt, {| tables := map (add_association id subnet) (tables m); faults := [] |}).
Proof.
  intros H Hid Hfree. unfold mem_AssociateRouteTable.
  rewrite (scheduled_no_faults _ _ H), Hid, Hfree. reflexivity.
Qed.

Lemma mem_CreateRoute_served (id cidr gw : string) (m : Mem) :
  faults m = [] ->
  existsb (has_id id) (tables m) = true ->
  mem_CreateRoute (Some id) cidr gw m
  = (OK tt, {| tables := map (add_route id {| DestinationCidrBlock := Some cidr;
                                              NatGatewayId := Some gw;
                                              GatewayId := None |}) (tables m);
               faults := [] |}).
Proof.
  intros H Hid. unfold mem_CreateRoute.
  rewrite (scheduled_no_faults _ _ H), Hid. reflexivity.
Qed.

(** With no failure scheduled and workable tables, the body goes through and
    leaves the provider so. *)
Lemma mem_body_goes_through (ev : Event) (networkID : string) (m : Mem) :
  faults m = [] ->
  forallb workable (tables m) = true ->
  exists m' calls,
    updateNat_body MemEC2 ev networkID m = (Ret None, m', calls)
    /\ faults m' = []
    /\ forallb workable (tables m') = true.
Proof.
  intros Hf Hw.
  rewrite updateNat_body_cases. mem_ops.
  rewrite (mem_DescribeRouteTables_served _ _ Hf).
  destruct (lookup networkID (tables m)) as [|t rest] eqn:Hl.
  - rewrite mem_CreateRouteTable_served by reflexivity.
    cbn [tables faults].
    change (RouteTableId (new_table (VPCID ev) (tables m)))
      with (Some (fresh_id (tables m))).
    assert (Hid : existsb (has_id (fresh_id (tables m)))
                          (tables m ++ [new_table (VPCID ev) (tables m)]) = true).
    { rewrite existsb_app. simpl. unfold has_id at 2. simpl.
      rewrite String.eqb_refl. rewrite !orb_true_r. reflexivity. }
    assert (Hfree : existsb (associated networkID)
                            (tables m ++ [new_table (VPCID ev) (tables m)]) = false).
    { rewrite existsb_app. simpl. rewrite orb_false_r.
      apply lookup_nil_iff. exact Hl. }
    rewrite (@mem_AssociateRouteTable_served (fresh_id (tables m)) networkID
               {| tables := tables m ++ [new_table (VPCID ev) (tables m)];
                  faults := [] |} eq_refl Hid Hfree).
    unfold finish. cbn [tables faults].
    change (Routes (new_table (VPCID ev) (tables m))) with (@nil Route).
    change (RouteTableId (new_table (VPCID ev) (tables m)))
      with (Some (fresh_id (tables m))).
    cbn [routes_range]. mem_ops.
    assert (Hid' : existsb (has_id (fresh_id (tables m)))
                     (map (add_association (fresh_id (tables m)) networkID)
                          (tables m ++ [new_table (VPCID ev) (tables m)])) = true).
    { apply existsb_exists. apply existsb_exists in Hid.
      destruct Hid as (x & Hin & Hx).
      exists (add_association (fresh_id (tables m)) networkID x).
      split; [apply in_map; exact Hin|].
      rewrite has_id_add_association. exact Hx. }
    rewrite (@mem_CreateRoute_served (fresh_id (tables m)) default_route
               (NatGatewayAWSID ev)
               {| tables := map (add_association (fresh_id (tables m)) networkID)
                                (tables m ++ [new_table (VPCID ev) (tables m)]);
                  faults := [] |} eq_refl Hid').
    eexists _, _. split; [reflexivity|]. split; [reflexivity|]. cbn [tables].
    apply forallb_map_same; [intros x Hx; apply workable_add_route; exact Hx|].
    apply forallb_map_same;
      [intros x Hx; rewrite workable_add_association; exact Hx|].
    rewrite forallb_app, Hw. reflexivity.
  - assert (Hin : In t (tables m)).
    { assert (Ht : In t (lookup networkID (tables m))) by (rewrite Hl; left; reflexivity).
      unfold lookup in Ht. apply filter_In in Ht. exact (proj1 Ht). }
    assert (Hwt : workable t = true).
    { rewrite forallb_forall in Hw. apply Hw. exact Hin. }
    unfold workable in Hwt.
    destruct (RouteTableId t) as [id|] eqn:Hid; [|discriminate].
    unfold finish. rewrite (routes_range_readable _ _ Hwt).
    destruct (existsb (is_target (NatGatewayAWSID ev)) (Routes t)).
    + eexists _, _. split; [reflexivity|]. split; [reflexivity|exact Hw].
    + mem_ops. rewrite Hid.
      assert (Hex : existsb (has_id id) (tables m) = true).
      { apply existsb_exists. exists t. split; [exact Hin|].
        unfold has_id. rewrite Hid. apply String.eqb_refl. }
      rewrite (@mem_CreateRoute_served id default_route (NatGatewayAWSID ev)
                 {| tables := tables m; faults := [] |} eq_refl Hex).
      eexists _, _. split; [reflexivity|]. split; [reflexivity|]. cbn [tables].
      apply forallb_map_same; [intros x Hx; apply workable_add_route; exact Hx|].
      exact Hw.
Qed.

Lemma mem_range_goes_through (ev : Event) (ids : list string) :
  forall m,
    faults m = [] ->
    forallb workable (tables m) = true ->
    exists m' its,
      updateNat_range MemEC2 ev ids m = (Ret None, m', its)
      /\ faults m' = []
      /\ forallb workable (tables m') = true.
Proof.
  induction ids as [|networkID rest IH]; intros m Hf Hw.
  - exists m, []. repeat split; assumption.
  - destruct (mem_body_goes_through ev networkID m Hf Hw) as (m1 & calls & Hb & Hf1 & Hw1).
    destruct (IH m1 Hf1 Hw1) as (m' & its & Hr & Hf' & Hw').
    simpl. rewrite Hb, Hr.
    eexists _, _. split; [reflexivity|]. split; assumption.
Qed.

(** X8: against the reference provider with no failure scheduled, when every
    table in place has an ID and only readable routes, [updateNat] returns
    nil: it neither fails nor panics, for any event and any list of subnets,
    with or without tables, and it leaves every subnet of the list configured
    and the tables as workable as before. *)
Theorem updateNat_succeeds_on_a_sound_provider (ev : Event) (m : Mem) :
  faults m = [] ->
  forallb workable (tables m) = true ->
  exists m' its,
    updateNat mem_New ev m = (Ret None, m', its)
    /\ (forall subnet, In subnet (RoutedNetworkAWSIDs ev) ->
          configured (NatGatewayAWSID ev) subnet (tables m'))
    /\ forallb workable (tables m') = true.
Proof.
  intros Hf Hw. unfold updateNat, mem_New.
  destruct (mem_range_goes_through ev (RoutedNetworkAWSIDs ev) m Hf Hw)
    as (m' & its & Hr & _ & Hw').
  exists m', its. split; [exact Hr|]. split; [|exact Hw'].
  exact (@mem_range_configures ev _ _ _ _ Hr).
Qed.

(** A table with the local route only is workable. *)
Lemma updateNat_succeeds_on_a_sound_provider_witness :
  exists m' its,
    updateNat mem_New natEvent unrouted_provider = (Ret None, m', its)
    /\ (forall subnet, In subnet (RoutedNetworkAWSIDs natEvent) ->
          configured (NatGatewayAWSID natEvent) subnet (tables m'))
    /\ forallb workable (tables m') = true.
Proof.
  apply (@updateNat_succeeds_on_a_sound_provider natEvent unrouted_provider
           eq_refl eq_refl).
Defined.

(** * Properties of the handler *)

Lemma Error_not_on_done_subject (json_Marshal : Event -> reply (list byte))
  (ev : Event) (err : error) :
  filter (fun msg => String.eqb (subject msg) done_subject)
         (snd (Error json_Marshal ev err)) = [].
Proof.
  rewrite Error_unfold.
  destruct (json_Marshal (set_ErrorMessage ev (error_Error err))); reflexivity.
Qed.

Section HandlerFacts.

Variable S : Type.
Variable ec2_New : Config -> EC2 S.
Variable json_Marshal : Event -> reply (list byte).
Variable json_Unmarshal : list byte -> Event -> Event * option error.

(** The handler, branch by branch. *)
Lemma eventHandler_cases (payload : list byte) (s : S) :
  eventHandler ec2_New json_Marshal json_Unmarshal payload s =
    match json_Unmarshal payload zero_Event with
    | (n, Some _) =>
        {| h_result := Ret tt; h_state := s; h_iterations := [];
           h_published := [{| subject := error_subject; data := payload |}] |}
    | (n, None) =>
        match Validate n with
        | Some err => report s [] [] (Error json_Marshal n err)
        | None =>
            match updateNat ec2_New n s with
            | (Panic, s', its) =>
                {| h_result := Panic; h_state := s'; h_iterations := its;
                   h_published := [] |}
            | (Ret (Some err), s', its) => report s' its [] (Error json_Marshal n err)
            | (Ret None, s', its) => report s' its [] (Complete json_Marshal n)
            end
        end
    end.
Proof.
  unfold eventHandler. rewrite Process_unfold.
  destruct (json_Unmarshal payload zero_Event) as [n [e|]]; reflexivity.
Qed.

(** A done report comes from [Complete] only, after a run that returned nil. *)
Lemma eventHandler_done_inv (payload : list byte) (s : S) (msg : Msg) :
  In msg (h_published (eventHandler ec2_New json_Marshal json_Unmarshal payload s)) ->
  subject msg = done_subject ->
  exists n,
    json_Unmarshal payload zero_Event = (n, None)
    /\ Validate n = None
    /\ updateNat ec2_New n s
       = (Ret None,
          h_state (eventHandler ec2_New json_Marshal json_Unmarshal payload s),
          h_iterations (eventHandler ec2_New json_Marshal json_Unmarshal payload s)).
Proof.
  rewrite eventHandler_cases. intros Hin Hsubj.
  assert (Hnot : forall ev err,
            ~ In msg (snd (Error json_Marshal ev err))).
  { intros ev err Hi.
    assert (Hf : In msg (filter (fun x => String.eqb (subject x) done_subject)
                                (snd (Error json_Marshal ev err)))).
    { apply filter_In. split; [exact Hi|]. rewrite Hsubj. apply String.eqb_refl. }
    rewrite Error_not_on_done_subject in Hf. exact Hf. }
  destruct (json_Unmarshal payload zero_Event) as [n [e|]].
  - simpl in Hin. destruct Hin as [Hm | []]. subst msg. discriminate.
  - exists n. split; [reflexivity|].
    destruct (Validate n) as [err|].
    + exfalso. simpl in Hin. exact (Hnot _ _ Hin).
    + split; [reflexivity|].
      destruct (updateNat ec2_New n s) as [[[[err|]|] s'] its].
      * exfalso. simpl in Hin. exact (Hnot _ _ Hin).
      * reflexivity.
      * destruct Hin.
Qed.

(** X9: a message that does not deserialize, or deserializes to an event that
    [Validate] refuses, never reaches the provider: the handler makes no call,
    leaves the provider state as it is and publishes nothing on the done
    subject.  For a message that does not deserialize it returns normally
    after publishing the raw bytes on the error subject, and nothing else. *)
Theorem eventHandler_guards_the_provider (payload : list byte) (s : S) :
  snd (json_Unmarshal payload zero_Event) <> None
  \/ Validate (fst (json_Unmarshal payload zero_Event)) <> None ->
  (h_state (eventHandler ec2_New json_Marshal json_Unmarshal payload s) = s
   /\ h_iterations (eventHandler ec2_New json_Marshal json_Unmarshal payload s) = []
   /\ filter (fun msg => String.eqb (subject msg) done_subject)
             (h_published (eventHandler ec2_New json_Marshal json_Unmarshal payload s))
      = [])
  /\ (snd (json_Unmarshal payload zero_Event) <> None ->
      h_result (eventHandler ec2_New json_Marshal json_Unmarshal payload s) = Ret tt
      /\ h_published (eventHandler ec2_New json_Marshal json_Unmarshal payload s)
         = [{| subject := error_subject; data := payload |}]).
Proof.
  rewrite eventHandler_cases.
  destruct (json_Unmarshal payload zero_Event) as [n [e|]]; simpl.
  - intros _. repeat split.
  - intros [H | H]; [exfalso; apply H; reflexivity|].
    destruct (Validate n) as [err|]; [|exfalso; apply H; reflexivity].
    split.
    + simpl. repeat split. apply Error_not_on_done_subject.
    + intro Hn. exfalso. apply Hn. reflexivity.
Qed.

(** X10: a done report is published only after the payload deserialized, the
    event passed [Validate], and [updateNat] returned nil: every subnet of
    the event's list was visited, in order, and no call failed. *)
Theorem eventHandler_done_means_reconciled (payload : list byte) (s : S) (msg : Msg) :
  In msg (h_published (eventHandler ec2_New json_Marshal json_Unmarshal payload s)) ->
  subject msg = done_subject ->
  exists n,
    json_Unmarshal payload zero_Event = (n, None)
    /\ Validate n = None
    /\ map it_subnet
           (h_iterations (eventHandler ec2_New json_Marshal json_Unmarshal payload s))
       = RoutedNetworkAWSIDs n
    /\ RoutedNetworkAWSIDs n <> []
    /\ failures
         (h_iterations (eventHandler ec2_New json_Marshal json_Unmarshal payload s))
       = [].
Proof.
  intros Hin Hsubj.
  destruct (eventHandler_done_inv _ _ _ Hin Hsubj) as (n & Hd & Hv & Hrun).
  exists n. split; [exact Hd|]. split; [exact Hv|].
  unfold updateNat in Hrun.
  destruct (updateNat_range_fail_fast _ _ _ _ Hrun) as (_ & _ & _ & Hnil).
  destruct (Hnil eq_refl) as [Hmap Hf].
  split; [exact Hmap|]. split; [|exact Hf].
  intro Hempty. unfold Validate in Hv. rewrite Hempty in Hv. simpl in Hv.
  destruct (is_empty (VPCID n)); [discriminate|].
  destruct (is_empty (DatacenterRegion n)); [discriminate|].
  destruct (is_empty (DatacenterAccessKey n) || is_empty (DatacenterAccessToken n));
    [discriminate|].
  destruct (is_empty (PublicNetworkAWSID n)); discriminate.
Qed.

(** X11: when the encoder accepts every event, handling a message ends in one
    of two ways: the handler returns after publishing exactly one message, on
    the done or on the error subject, or [updateNat] panics and the handler
    with it, having published nothing. *)
Theorem eventHandler_reports_once (payload : list byte) (s : S) :
  (forall ev, exists p, json_Marshal ev = OK p) ->
  (h_result (eventHandler ec2_New json_Marshal json_Unmarshal payload s) = Ret tt
   /\ exists msg,
        h_published (eventHandler ec2_New json_Marshal json_Unmarshal payload s) = [msg]
        /\ (subject msg = done_subject \/ subject msg = error_subject))
  \/ (h_result (eventHandler ec2_New json_Marshal json_Unmarshal payload s) = Panic
      /\ h_published (eventHandler ec2_New json_Marshal json_Unmarshal payload s) = []
      /\ exists n, json_Unmarshal payload zero_Event = (n, None)
                   /\ Validate n = None
                   /\ fst (fst (updateNat ec2_New n s)) = Panic).
Proof.
  intro Htotal. rewrite eventHandler_cases.
  assert (HE : forall ev err,
            exists p, Error json_Marshal ev err
                      = (Ret (set_ErrorMessage ev (error_Error err)),
                         [{| subject := error_subject; data := p |}])).
  { intros ev err. rewrite Error_unfold.
    destruct (Htotal (set_ErrorMessage ev (error_Error err))) as [p Hp].
    rewrite Hp. exists p. reflexivity. }
  assert (HC : forall ev,
            exists p, Complete json_Marshal ev
                      = (Ret ev, [{| subject := done_subject; data := p |}])).
  { intros ev. unfold Complete. destruct (Htotal ev) as [p Hp].
    rewrite Hp. exists p. reflexivity. }
  destruct (json_Unmarshal payload zero_Event) as [n [e|]].
  - left. split; [reflexivity|]. eexists. split; [reflexivity|]. right. reflexivity.
  - destruct (Validate n) as [err|] eqn:Hv.
    + left. destruct (HE n err) as [p Hp]. unfold report. rewrite Hp. simpl.
      split; [reflexivity|]. eexists. split; [reflexivity|]. right. reflexivity.
    + destruct (updateNat ec2_New n s) as [[[[err|]|] s'] its] eqn:Hrun.
      * left. destruct (HE n err) as [p Hp]. unfold report. rewrite Hp. simpl.
        split; [reflexivity|]. eexists. split; [reflexivity|]. right. reflexivity.
      * left. destruct (HC n) as [p Hp]. unfold report. rewrite Hp. simpl.
        split; [reflexivity|]. eexists. split; [reflexivity|]. left. reflexivity.
      * right. split; [reflexivity|]. split; [reflexivity|].
        exists n. split; [reflexivity|]. split; [exact Hv|]. rewrite Hrun. reflexivity.
Qed.

(** X12: when a call of the provider fails during the run, the handler
    publishes one message, on the error subject: the serialization of the
    event with [ErrorMessage] set to the message of that call's error; it
    publishes nothing on the done subject and leaves the provider in the
    state the failed run left it. *)
Theorem eventHandler_reports_the_failed_call (payload : list byte) (s s' : S)
  (n : Event) (err : error) (its : list Iteration) (p : list byte) :
  json_Unmarshal payload zero_Event = (n, None) ->
  Validate n = None ->
  updateNat ec2_New n s = (Ret (Some err), s', its) ->
  json_Marshal (set_ErrorMessage n (error_Error err)) = OK p ->
  eventHandler ec2_New json_Marshal json_Unmarshal payload s
  = {| h_result := Ret tt; h_state := s'; h_iterations := its;
       h_published := [{| subject := error_subject; data := p |}] |}
  /\ failures its = [err]
  /\ ErrorMessage (set_ErrorMessage n (error_Error err)) = error_Error err.
Proof.
  intros Hd Hv Hrun Hm.
  rewrite eventHandler_cases, Hd. cbv beta iota. rewrite Hv, Hrun. unfold report.
  rewrite Error_unfold, Hm. simpl.
  split; [reflexivity|]. split; [|reflexivity].
  unfold updateNat in Hrun.
  destruct (updateNat_range_fail_fast _ _ _ _ Hrun) as (_ & _ & Herr & _).
  exact (proj1 (Herr err eq_refl)).
Qed.

End HandlerFacts.

(** X13: against the reference provider, once a message has been handled
    with a done report, handling the same message again, whatever calls fail
    this time, makes lookups only: no table is created or associated, no
    route is created, and the tables stay as the first handling left them. *)
Theorem eventHandler_redelivery_is_harmless
  (json_Marshal : Event -> reply (list byte))
  (json_Unmarshal : list byte -> Event -> Event * option error)
  (payload : list byte) (m : Mem) (msg : Msg) (fs : list (option error)) :
  In msg (h_published (eventHandler mem_New json_Marshal json_Unmarshal payload m)) ->
  subject msg = done_subject ->
  filter mutating
    (all_calls
       (h_iterations
          (eventHandler mem_New json_Marshal json_Unmarshal payload
             {| tables := tables (h_state (eventHandler mem_New json_Marshal
                                             json_Unmarshal payload m));
                faults := fs |})))
  = []
  /\ tables
       (h_state
          (eventHandler mem_New json_Marshal json_Unmarshal payload
             {| tables := tables (h_state (eventHandler mem_New json_Marshal
                                             json_Unmarshal payload m));
                faults := fs |}))
     = tables (h_state (eventHandler mem_New json_Marshal json_Unmarshal payload m)).
Proof.
  intros Hin Hsubj.
  destruct (eventHandler_done_inv _ _ _ _ _ _ Hin Hsubj) as (n & Hd & Hv & Hrun).
  set (m1 := h_state (eventHandler mem_New json_Marshal json_Unmarshal payload m))
    in *.
  unfold updateNat, mem_New in Hrun.
  pose proof (@mem_range_configures n _ _ _ _ Hrun) as Hall.
  rewrite eventHandler_cases, Hd. cbv beta iota. rewrite Hv.
  destruct (updateNat mem_New n {| tables := tables m1; faults := fs |})
    as [[r2 m2] its2] eqn:H2.
  unfold updateNat, mem_New in H2.
  destruct (@mem_range_idempotent n (RoutedNetworkAWSIDs n)
              {| tables := tables m1; faults := fs |} r2 m2 its2 Hall H2)
    as (Hq & Ht & Hnp).
  destruct r2 as [[err|]|]; simpl; [split; assumption|split; assumption|].
  exfalso. apply Hnp. reflexivity.
Qed.

(** ** Sample handlings *)

(** The empty payload is refused by the decoder: the raw bytes go to the
    error subject and the provider is not called. *)
Lemma eventHandler_guards_the_provider_witness :
  h_state (eventHandler mem_New total_Marshal vpc_Unmarshal [] empty_provider)
  = empty_provider
  /\ h_iterations (eventHandler mem_New total_Marshal vpc_Unmarshal [] empty_provider)
     = []
  /\ filter (fun msg => String.eqb (subject msg) done_subject)
            (h_published (eventHandler mem_New total_Marshal vpc_Unmarshal []
                            empty_provider))
     = [].
Proof.
  assert (Hbad : snd (vpc_Unmarshal [] zero_Event) <> None
                 \/ Validate (fst (vpc_Unmarshal [] zero_Event)) <> None)
    by (left; simpl; discriminate).
  pose proof (@eventHandler_guards_the_provider
                Mem mem_New total_Marshal vpc_Unmarshal [] empty_provider Hbad) as H.
  exact (proj1 H).
Defined.

(** A payload that decodes to a valid event is reconciled and reported done. *)
Lemma eventHandler_done_means_reconciled_witness :
  exists n,
    vpc_Unmarshal (list_byte_of_string "vpc-0000000") zero_Event = (n, None)
    /\ Validate n = None
    /\ map it_subnet
         (h_iterations (eventHandler mem_New total_Marshal vpc_Unmarshal
                          (list_byte_of_string "vpc-0000000") empty_provider))
       = RoutedNetworkAWSIDs n
    /\ RoutedNetworkAWSIDs n <> []
    /\ failures
         (h_iterations (eventHandler mem_New total_Marshal vpc_Unmarshal
                          (list_byte_of_string "vpc-0000000") empty_provider))
       = [].
Proof.
  assert (Hin : In {| subject := done_subject;
                      data := list_byte_of_string "vpc-0000000/" |}
                   (h_published (eventHandler mem_New total_Marshal vpc_Unmarshal
                                   (list_byte_of_string "vpc-0000000") empty_provider)))
    by (vm_compute; left; reflexivity).
  exact (@eventHandler_done_means_reconciled
           Mem mem_New total_Marshal vpc_Unmarshal
           (list_byte_of_string "vpc-0000000") empty_provider
           {| subject := done_subject;
              data := list_byte_of_string "vpc-0000000/" |}
           Hin eq_refl).
Defined.

(** With an encoder that accepts every event, one message per handling. *)
Lemma eventHandler_reports_once_witness :
  (h_result (eventHandler mem_New total_Marshal blank_Unmarshal [] empty_provider)
   = Ret tt
   /\ exists msg,
        h_published (eventHandler mem_New total_Marshal blank_Unmarshal []
                       empty_provider) = [msg]
        /\ (subject msg = done_subject \/ subject msg = error_subject))
  \/ (h_result (eventHandler mem_New total_Marshal blank_Unmarshal [] empty_provider)
      = Panic
      /\ h_published (eventHandler mem_New total_Marshal blank_Unmarshal []
                        empty_provider) = []
      /\ exists n, blank_Unmarshal [] zero_Event = (n, None)
                   /\ Validate n = None
                   /\ fst (fst (updateNat mem_New n empty_provider)) = Panic).
Proof.
  assert (Htotal : forall ev, exists p, total_Marshal ev = OK p)
    by (intro ev; eexists; reflexivity).
  exact (@eventHandler_reports_once Mem mem_New total_Marshal blank_Unmarshal []
           empty_provider Htotal).
Defined.

(** The provider refuses the creation of the table: the error report carries
    the provider's message. *)
Lemma eventHandler_reports_the_failed_call_witness :
  h_published (eventHandler mem_New total_Marshal vpc_Unmarshal
                 (list_byte_of_string "vpc-0000000") throttled_provider)
  = [{| subject := error_subject;
        data := list_byte_of_string "vpc-0000000/RequestLimitExceeded" |}].
Proof.
  assert (Hrun : updateNat mem_New
                   (fst (vpc_Unmarshal (list_byte_of_string "vpc-0000000") zero_Event))
                   throttled_provider
                 = (Ret (Some ErrRequestLimitExceeded),
                    {| tables := []; faults := [] |},
                    [{| it_subnet := "subnet-00000001";
                        it_calls :=
                          [ok (DescribeRouteTablesInput "subnet-00000001");
                           failed (CreateRouteTableInput "vpc-0000000")
                                  ErrRequestLimitExceeded] |}]))
    by (vm_compute; reflexivity).
  pose proof (@eventHandler_reports_the_failed_call
                Mem mem_New total_Marshal vpc_Unmarshal
                (list_byte_of_string "vpc-0000000") throttled_provider
                _ _ _ _
                (list_byte_of_string "vpc-0000000/RequestLimitExceeded")
                eq_refl eq_refl Hrun eq_refl) as H.
  rewrite (proj1 H). reflexivity.
Defined.

(** The message handled a second time, the first call failing this time. *)
Lemma eventHandler_redelivery_is_harmless_witness :
  filter mutating
    (all_calls
       (h_iterations
          (eventHandler mem_New total_Marshal vpc_Unmarshal
             (list_byte_of_string "vpc-0000000")
             {| tables := tables (h_state (eventHandler mem_New total_Marshal
                                             vpc_Unmarshal
                                             (list_byte_of_string "vpc-0000000")
                                             empty_provider));
                faults := [Some ErrRequestLimitExceeded] |})))
  = [].
Proof.
  assert (Hin : In {| subject := done_subject;
                      data := list_byte_of_string "vpc-0000000/" |}
                   (h_published (eventHandler mem_New total_Marshal vpc_Unmarshal
                                   (list_byte_of_string "vpc-0000000") empty_provider)))
    by (vm_compute; left; reflexivity).
  pose proof (@eventHandler_redelivery_is_harmless
                total_Marshal vpc_Unmarshal (list_byte_of_string "vpc-0000000")
                empty_provider
                {| subject := done_subject;
                   data := list_byte_of_string "vpc-0000000/" |}
                [Some ErrRequestLimitExceeded]
                Hin eq_refl) as H.
  exact (proj1 H).
Defined.

(** * The fallback of Complete *)

(** X14: [Complete] has three ways to end, decided by the encoder.  When the
    event serializes, it publishes the serialization on the done subject.
    When it does not, [Complete] calls [Error] and then goes on: if the event
    serializes with the error message set, the error report is followed by a
    done report with an empty payload, two messages for one event; if it
    still does not serialize, [Error] panics and nothing is published. *)
Theorem Complete_goes_on_after_the_fallback
  (json_Marshal : Event -> reply (list byte)) (ev : Event) :
  match json_Marshal ev with
  | OK payload =>
      Complete json_Marshal ev
      = (Ret ev, [{| subject := done_subject; data := payload |}])
  | ERR err =>
      match json_Marshal (set_ErrorMessage ev (error_Error err)) with
      | OK report =>
          Complete json_Marshal ev
          = (Ret (set_ErrorMessage ev (error_Error err)),
             [{| subject := error_subject; data := report |};
              {| subject := done_subject; data := [] |}])
      | ERR _ => Complete json_Marshal ev = (Panic, [])
      end
  end.
Proof.
  unfold Complete.
  destruct (json_Marshal ev) as [payload|err]; [reflexivity|].
  rewrite Error_unfold.
  destruct (json_Marshal (set_ErrorMessage ev (error_Error err))); reflexivity.
Qed.

(** * The loop, call by call *)

Lemma body_calls_names (ev : Event) (subnet : string) (cs : list Call) :
  body_calls ev subnet cs ->
  (exists tail, cs = DescribeRouteTablesInput subnet :: tail)
  /\ (forall c sub, In c cs -> subnet_of c = Some sub -> sub = subnet).
Proof.
  intros (rtid & [H | [H | [H | [H | H]]]]); subst cs;
    (split; [eexists; reflexivity|]);
    intros c sub Hin Hsub; simpl in Hin;
    repeat (destruct Hin as [Hin | Hin]; [subst c; simpl in Hsub; congruence|]);
    destruct Hin.
Qed.

(** Each iteration of a run is the body of the loop, run at the subnet in
    that position of the list from the state the iterations before it left. *)
Lemma updateNat_range_iteration (S : Type) (svc : EC2 S) (ev : Event) (ids : list string) :
  forall (s : S) (r : result (option error)) (s' : S) (its its1 : list Iteration)
         (it : Iteration) (its2 : list Iteration),
    updateNat_range svc ev ids s = (r, s', its) ->
    its = its1 ++ it :: its2 ->
    nth_error ids (List.length its1) = Some (it_subnet it)
    /\ exists s_i r_i s_i',
         updateNat_range svc ev (firstn (List.length its1) ids) s = (Ret None, s_i, its1)
         /\ updateNat_body svc ev (it_subnet it) s_i = (r_i, s_i', it_calls it).
Proof.
  induction ids as [|networkID rest IH]; intros s r s' its its1 it its2 H Hits.
  - inversion H; subst. destruct its1; discriminate.
  - apply updateNat_range_cons in H.
    destruct H as (rb & s1 & calls & Hb & [(Hrb & its' & Hrest & Heq) | (_ & _ & _ & Heq)]).
    + subst rb. rewrite Heq in Hits. destruct its1 as [|x its1]; simpl in Hits.
      * inversion Hits; subst. simpl. split; [reflexivity|].
        exists s, (Ret None), s1. split; [reflexivity|exact Hb].
      * inversion Hits; subst.
        destruct (IH _ _ _ _ _ _ _ Hrest eq_refl) as (Hnth & s_i & r_i & s_i' & Hpre & Hbody).
        simpl. split; [exact Hnth|].
        exists s_i, r_i, s_i'. split; [|exact Hbody].
        rewrite Hb, Hpre. reflexivity.
    + rewrite Heq in Hits. destruct its1 as [|x its1]; simpl in Hits.
      * inversion Hits; subst. simpl. split; [reflexivity|].
        exists s, rb, s1. split; [reflexivity|exact Hb].
      * inversion Hits. destruct its1; discriminate.
Qed.

Lemma updateNat_body_calls_at (S : Type) (svc : EC2 S) (ev : Event) (networkID : string)
  (s : S) (r : result (option error)) (s' : S) (calls : list Entry) :
  updateNat_body svc ev networkID s = (r, s', calls) ->
  body_calls_at svc ev networkID s (map call calls).
Proof.
  rewrite updateNat_body_cases. unfold finish, body_calls_at. intro H.
  destruct (DescribeRouteTables svc networkID s) as [[[|t ts]|e] s1].
  - destruct (CreateRouteTable svc (VPCID ev) s1) as [[[t|]|e] s2].
    + destruct (AssociateRouteTable svc (RouteTableId t) networkID s2) as [[u|e] s3].
      * destruct (routes_range (Routes t) (NatGatewayAWSID ev)) as [[|]|].
        -- inversion H; subst. left. reflexivity.
        -- destruct (CreateRoute svc (RouteTableId t) default_route
                       (NatGatewayAWSID ev) s3) as [[u'|e] s4];
             inversion H; subst; right; reflexivity.
        -- inversion H; subst. left. reflexivity.
      * inversion H; subst. left. reflexivity.
    + inversion H; subst. reflexivity.
    + inversion H; subst. reflexivity.
  - destruct (routes_range (Routes t) (NatGatewayAWSID ev)) as [[|]|].
    + inversion H; subst. left. reflexivity.
    + destruct (CreateRoute svc (RouteTableId t) default_route
                  (NatGatewayAWSID ev) s1) as [[u'|e] s4];
        inversion H; subst; right; reflexivity.
    + inversion H; subst. left. reflexivity.
  - inversion H; subst. reflexivity.
Qed.

(** C3: whatever the provider does, the loop visits the subnets in the order
    of the list and stops at the first failure.  A call that fails is the
    last call of the run and its error is what [updateNat] returns,
    unchanged; an error returned is the error of the one failed call.  Every
    call made while the loop is at a subnet names that subnet and no other
    (the lookup and the association carry it), so no call of a run names a
    subnet behind the one the run stopped at.  Nil is returned only after
    every subnet of the list was visited, each with its lookup, and no call
    failed. *)
Theorem updateNat_fail_fast (S : Type) (ec2_New : Config -> EC2 S) (ev : Event) (s : S)
  (r : result (option error)) (s' : S) (its : list Iteration) :
  updateNat ec2_New ev s = (r, s', its) ->
  map it_subnet its = firstn (List.length its) (RoutedNetworkAWSIDs ev)
  /\ (forall its1 it its2 before c e after,
        its = its1 ++ it :: its2 ->
        it_calls it = before ++ failed c e :: after ->
        r = Ret (Some e) /\ after = [] /\ its2 = [])
  /\ (forall e, r = Ret (Some e) ->
        failures its = [e]
        /\ exists its1 it before c,
             its = its1 ++ [it] /\ it_calls it = before ++ [failed c e])
  /\ (r = Ret None ->
      map it_subnet its = RoutedNetworkAWSIDs ev /\ failures its = [])
  /\ (forall it, In it its ->
        (exists tail,
           map call (it_calls it) = DescribeRouteTablesInput (it_subnet it) :: tail)
        /\ forall c sub,
             In c (map call (it_calls it)) -> subnet_of c = Some sub ->
             sub = it_subnet it)
  /\ (forall c sub,
        In c (all_calls its) -> subnet_of c = Some sub ->
        In sub (firstn (List.length its) (RoutedNetworkAWSIDs ev))).
Proof.
  unfold updateNat. intro H.
  destruct (updateNat_range_fail_fast _ _ _ _ H) as (Hmap & Hfail & Herr & Hnil).
  destruct (updateNat_range_calls _ _ _ _ H) as (Hpat & _).
  assert (Hnames : forall it, In it its ->
            (exists tail,
               map call (it_calls it) = DescribeRouteTablesInput (it_subnet it) :: tail)
            /\ forall c sub,
                 In c (map call (it_calls it)) -> subnet_of c = Some sub ->
                 sub = it_subnet it).
  { intros it Hin. apply (@body_calls_names ev). exact (proj2 (Hpat it Hin)). }
  split; [exact Hmap|]. split; [exact Hfail|]. split; [exact Herr|].
  split; [exact Hnil|]. split; [exact Hnames|].
  intros c sub Hin Hsub. unfold all_calls in Hin.
  apply in_flat_map in Hin. destruct Hin as (it & Hit & Hc).
  rewrite <- Hmap.
  rewrite (proj2 (Hnames it Hit) c sub Hc Hsub).
  apply in_map. exact Hit.
Qed.

(** A refused call ends the run with its error, at the first subnet: the
    second is named by no call. *)
Lemma updateNat_fail_fast_witness :
  failures (snd (updateNat mem_New natEvent throttled_provider))
  = [ErrRequestLimitExceeded]
  /\ map it_subnet (snd (updateNat mem_New natEvent throttled_provider))
     = ["subnet-00000001"]
  /\ forall c sub,
       In c (all_calls (snd (updateNat mem_New natEvent throttled_provider))) ->
       subnet_of c = Some sub ->
       In sub ["subnet-00000001"].
Proof.
  pose proof (@updateNat_fail_fast Mem mem_New natEvent throttled_provider
                (fst (fst (updateNat mem_New natEvent throttled_provider)))
                (snd (fst (updateNat mem_New natEvent throttled_provider)))
                (snd (updateNat mem_New natEvent throttled_provider))
                eq_refl) as H.
  split; [|split].
  - exact (proj1 (proj1 (proj2 (proj2 H)) ErrRequestLimitExceeded eq_refl)).
  - exact (proj1 H).
  - exact (proj2 (proj2 (proj2 (proj2 (proj2 H))))).
Defined.

(** X3: whatever the provider does, the calls of a run are bounded and of a
    fixed form.  Each iteration is the body of the loop at the subnet in that
    position of the list, run from the state the iterations before it left,
    and its calls follow the replies the provider gives from that state: the
    lookup for the subnet comes first; when it returns tables, the only other
    call possible is create-route of 0.0.0.0/0 to the event's NAT gateway on
    the ID of the first of them; when it returns none, create-route-table in
    the event's VPC follows, then the association of the table that call
    returned with the subnet at hand, then create-route on that same table.
    A run makes at least one and at most four calls for each subnet it
    visits, so at most four times the length of the list. *)
Theorem updateNat_calls_are_bounded (S : Type) (ec2_New : Config -> EC2 S) (ev : Event)
  (s : S) (r : result (option error)) (s' : S) (its : list Iteration) :
  updateNat ec2_New ev s = (r, s', its) ->
  (forall its1 it its2,
     its = its1 ++ it :: its2 ->
     nth_error (RoutedNetworkAWSIDs ev) (List.length its1) = Some (it_subnet it)
     /\ exists s_i,
          updateNat_range
            (ec2_New {| Region := DatacenterRegion ev;
                        AccessKeyID := DatacenterAccessKey ev;
                        SecretAccessKey := DatacenterAccessToken ev |})
            ev (firstn (List.length its1) (RoutedNetworkAWSIDs ev)) s
          = (Ret None, s_i, its1)
          /\ body_calls_at
               (ec2_New {| Region := DatacenterRegion ev;
                           AccessKeyID := DatacenterAccessKey ev;
                           SecretAccessKey := DatacenterAccessToken ev |})
               ev (it_subnet it) s_i (map call (it_calls it)))
  /\ List.length its <= List.length (RoutedNetworkAWSIDs ev)
  /\ List.length its <= List.length (all_calls its)
     <= 4 * List.length (RoutedNetworkAWSIDs ev).
Proof.
  unfold updateNat. intro H.
  split; [|exact (proj2 (updateNat_range_calls _ _ _ _ H))].
  intros its1 it its2 Hits.
  destruct (@updateNat_range_iteration _ _ _ _ _ _ _ _ _ _ _ H Hits)
    as (Hnth & s_i & r_i & s_i' & Hpre & Hbody).
  split; [exact Hnth|].
  exists s_i. split; [exact Hpre|].
  eapply updateNat_body_calls_at. exact Hbody.
Qed.

(** The run against the empty provider: the second subnet is handled from
    the state the first left, with the table created for it. *)
Lemma updateNat_calls_are_bounded_witness :
  (exists s_i,
     updateNat_range MemEC2 natEvent ["subnet-00000001"] empty_provider
     = (Ret None, s_i, firstn 1 (snd (updateNat mem_New natEvent empty_provider)))
     /\ body_calls_at MemEC2 natEvent "subnet-00000002" s_i
          [DescribeRouteTablesInput "subnet-00000002";
           CreateRouteTableInput "vpc-0000000";
           AssociateRouteTableInput (Some "rtb-000000") "subnet-00000002";
           CreateRouteInput (Some "rtb-000000") default_route "nat-1"])
  /\ 2 <= List.length (all_calls (snd (updateNat mem_New natEvent empty_provider))) <= 8.
Proof.
  pose proof (@updateNat_calls_are_bounded Mem mem_New natEvent empty_provider
                (fst (fst (updateNat mem_New natEvent empty_provider)))
                (snd (fst (updateNat mem_New natEvent empty_provider)))
                (snd (updateNat mem_New natEvent empty_provider))
                eq_refl) as H.
  split; [|exact (proj2 (proj2 H))].
  exact (proj2 (proj1 H
                 (firstn 1 (snd (updateNat mem_New natEvent empty_provider)))
                 (nth 1 (snd (updateNat mem_New natEvent empty_provider))
                      {| it_subnet := ""; it_calls := [] |})
                 [] eq_refl)).
Defined.
